(** * Study Buddy: the Pomodoro timer of the background service worker

    A shallow embedding of [src/extension/background.js] (class
    [PomodoroTimer], the alarm listener and the message listener) and of the
    settings form of [src/extension/popup.js], followed by the properties of
    the timer state machine.

    Conventions of the embedding.
    - JavaScript numbers are integers of [Z]: minutes, milliseconds and
      [Date.now()] readings.  [NaN], fractions and magnitudes beyond 2^53 are
      outside the model.
    - [Date.now()] is an explicit argument [now] of every method that reads
      the clock.
    - [this] and the [chrome.*] services the timer talks to (local storage,
      the recurring alarm, notifications, speech, runtime messages) form one
      record [World]; every method is a function [World -> World].
    - A nullable number ([timerStartTime], [startTime]) is an [option Z];
      the coercions JavaScript applies to it are in module [JS]. *)

From Stdlib Require Import ZArith String List Bool Lia.
From Stdlib Require Import Ascii.
From Stdlib Require DecimalString.
Import ListNotations.

Local Open Scope string_scope.
Local Open Scope Z_scope.

(** ** JavaScript coercions used by the source *)

Module JS.

(** Truthiness of a nullable number: [null] and [0] are falsy. *)
Definition truthy (v : option Z) : bool :=
  match v with
  | Some n => negb (n =? 0)
  | None => false
  end.

(** [v || null] on a nullable number. *)
Definition or_null (v : option Z) : option Z :=
  if truthy v then v else None.

(** [s || d] on a string: the empty string is falsy. *)
Definition str_or (s d : string) : string :=
  if String.eqb s "" then d else s.

(** [n || 0] on a number. *)
Definition num_or_zero (n : Z) : Z :=
  if n =? 0 then 0 else n.

(** [ToNumber] of a nullable number inside a subtraction: [null] is [0]. *)
Definition to_number (v : option Z) : Z :=
  match v with
  | Some n => n
  | None => 0
  end.

(** [a % b === 0].  The remainder takes the sign of the dividend
    ([Z.rem]); [a % 0] is [NaN], which is not [=== 0]. *)
Definition rem_is_zero (a b : Z) : bool :=
  if b =? 0 then false else Z.rem a b =? 0.

(** An optional string inside a template literal. *)
Definition interpolate (v : option string) : string :=
  match v with
  | Some s => s
  | None => "undefined"
  end.

(** The escape [\n]. *)
Definition nl : string := String (Ascii.ascii_of_nat 10) EmptyString.

End JS.

(** ** The background service worker *)

Module Background.

(** [this.settings]: the four recognised options, in minutes and
    sessions. *)
Record Settings := mkSettings {
  workTime : Z;
  shortBreak : Z;
  longBreak : Z;
  longBreakInterval : Z
}.

(** A settings object that may lack some of the four keys: the argument of
    [updateSettings] and the value stored under [timerSettings]. *)
Record SettingsPatch := mkPatch {
  workTime' : option Z;
  shortBreak' : option Z;
  longBreak' : option Z;
  longBreakInterval' : option Z
}.

Definition pick (new : option Z) (old : Z) : Z :=
  match new with
  | Some v => v
  | None => old
  end.

(** [{ ...s, ...p }] *)
Definition spread (s : Settings) (p : SettingsPatch) : Settings :=
  {| workTime := pick (workTime' p) (workTime s);
     shortBreak := pick (shortBreak' p) (shortBreak s);
     longBreak := pick (longBreak' p) (longBreak s);
     longBreakInterval := pick (longBreakInterval' p) (longBreakInterval s) |}.

(** A settings object holding all four keys, seen as a patch. *)
Definition full (s : Settings) : SettingsPatch :=
  {| workTime' := Some (workTime s);
     shortBreak' := Some (shortBreak s);
     longBreak' := Some (longBreak s);
     longBreakInterval' := Some (longBreakInterval s) |}.

(** The fields of a [PomodoroTimer] instance. *)
Record PomodoroTimer := mkTimer {
  isTimerRunning : bool;
  currentPhase : string;
  timeRemainingInMilliseconds : Z;
  completedPomodoros : Z;
  timerStartTime : option Z;
  settings : Settings
}.

(** The object written under the key [timerState].  [timeRemaining] is
    optional because [loadTimerState] tests [typeof ... === "number"]; for
    the other four keys an absent key behaves like the falsy value of its
    type ([false], the empty string, [0], [null]). *)
Module Stored.
Record t := mk {
  isRunning : bool;
  currentPhase : string;
  completedPomodoros : Z;
  startTime : option Z;
  timeRemaining : option Z
}.
End Stored.

(** The two keys of [chrome.storage.local] the timer uses. *)
Record Storage := mkStorage {
  timerState : option Stored.t;
  timerSettings : option SettingsPatch
}.

Definition emptyStorage : Storage :=
  {| timerState := None; timerSettings := None |}.

(** What leaves the worker on a completion. *)
Inductive Event :=
| Notification (title message : string)
| Speech (text : string)
| TimerCompleted (completedPhase nextPhase : string)
                 (completedPomodoros : Z).

(** An emitted event together with the timer fields as they were at the
    moment it was emitted; [seen] is what ordering statements refer to. *)
Record Emission := mkEmission {
  event : Event;
  seen : PomodoroTimer
}.

Record World := mkWorld {
  timer : PomodoroTimer;
  storage : Storage;
  alarm : bool;
  outbox : list Emission
}.

(** *** Field updates *)

Definition setRunning (b : bool) (t : PomodoroTimer) : PomodoroTimer :=
  mkTimer b (currentPhase t) (timeRemainingInMilliseconds t)
          (completedPomodoros t) (timerStartTime t) (settings t).

Definition setPhase (p : string) (t : PomodoroTimer) : PomodoroTimer :=
  mkTimer (isTimerRunning t) p (timeRemainingInMilliseconds t)
          (completedPomodoros t) (timerStartTime t) (settings t).

Definition setRemaining (ms : Z) (t : PomodoroTimer) : PomodoroTimer :=
  mkTimer (isTimerRunning t) (currentPhase t) ms
          (completedPomodoros t) (timerStartTime t) (settings t).

Definition setCompleted (n : Z) (t : PomodoroTimer) : PomodoroTimer :=
  mkTimer (isTimerRunning t) (currentPhase t) (timeRemainingInMilliseconds t)
          n (timerStartTime t) (settings t).

Definition setStartTime (v : option Z) (t : PomodoroTimer) : PomodoroTimer :=
  mkTimer (isTimerRunning t) (currentPhase t) (timeRemainingInMilliseconds t)
          (completedPomodoros t) v (settings t).

Definition setSettings (s : Settings) (t : PomodoroTimer) : PomodoroTimer :=
  mkTimer (isTimerRunning t) (currentPhase t) (timeRemainingInMilliseconds t)
          (completedPomodoros t) (timerStartTime t) s.

Definition withTimer (t : PomodoroTimer) (w : World) : World :=
  mkWorld t (storage w) (alarm w) (outbox w).

Definition withStorage (st : Storage) (w : World) : World :=
  mkWorld (timer w) st (alarm w) (outbox w).

Definition withAlarm (a : bool) (w : World) : World :=
  mkWorld (timer w) (storage w) a (outbox w).

(** Emitting records the event with the timer as it is now. *)
Definition emit (e : Event) (w : World) : World :=
  mkWorld (timer w) (storage w) (alarm w)
          (outbox w ++ [mkEmission e (timer w)])%list.

(** *** [PomodoroTimer] *)

Definition defaultSettings : Settings :=
  {| workTime := 25; shortBreak := 5; longBreak := 15;
     longBreakInterval := 4 |}.

(** The field assignments of the constructor. *)
Definition constructed : PomodoroTimer :=
  {| isTimerRunning := false;
     currentPhase := "work";
     timeRemainingInMilliseconds := 0;
     completedPomodoros := 0;
     timerStartTime := None;
     settings := defaultSettings |}.

Definition getPhaseTimeInMilliseconds (this : PomodoroTimer)
           (phase : string) : Z :=
  if String.eqb phase "work" then workTime (settings this) * 60 * 1000
  else if String.eqb phase "break" then
    shortBreak (settings this) * 60 * 1000
  else if String.eqb phase "longBreak" then
    longBreak (settings this) * 60 * 1000
  else workTime (settings this) * 60 * 1000.

Definition saveTimerState (w : World) : World :=
  let this := timer w in
  let timerState :=
    {| Stored.isRunning := isTimerRunning this;
       Stored.currentPhase := currentPhase this;
       Stored.completedPomodoros := completedPomodoros this;
       Stored.startTime := timerStartTime this;
       Stored.timeRemaining := Some (timeRemainingInMilliseconds this) |} in
  withStorage (mkStorage (Some timerState) (timerSettings (storage w))) w.

(** The in-memory [timeRemainingInMilliseconds] always holds a number, so
    of the test [=== 0 || == null] only the first disjunct can fire. *)
Definition loadTimerState (w : World) : World :=
  match timerState (storage w) with
  | None => w
  | Some r =>
      let this := timer w in
      let this := setRunning (Stored.isRunning r || false) this in
      let this := setPhase (JS.str_or (Stored.currentPhase r) "work") this in
      let this :=
        setCompleted (JS.num_or_zero (Stored.completedPomodoros r)) this in
      let this := setStartTime (JS.or_null (Stored.startTime r)) this in
      let this :=
        match Stored.timeRemaining r with
        | Some ms => setRemaining ms this
        | None => this
        end in
      let this :=
        if negb (isTimerRunning this)
           && (timeRemainingInMilliseconds this =? 0)
        then setRemaining
               (getPhaseTimeInMilliseconds this (currentPhase this)) this
        else this in
      withTimer this w
  end.

Definition loadSettings (w : World) : World :=
  match timerSettings (storage w) with
  | None => w
  | Some p =>
      withTimer (setSettings (spread (settings (timer w)) p) (timer w)) w
  end.

Definition updateSettings (newSettings : SettingsPatch) (w : World)
  : World :=
  let this := setSettings (spread (settings (timer w)) newSettings)
                          (timer w) in
  let st := mkStorage (timerState (storage w))
                      (Some (full (settings this))) in
  let this :=
    if negb (isTimerRunning this)
    then setRemaining
           (getPhaseTimeInMilliseconds this (currentPhase this)) this
    else this in
  withTimer this (withStorage st w).

Definition initializeTimer (this : PomodoroTimer) : PomodoroTimer :=
  if timeRemainingInMilliseconds this =? 0
  then setRemaining (getPhaseTimeInMilliseconds this (currentPhase this))
                    this
  else this.

Definition start (now : Z) (w : World) : World :=
  if isTimerRunning (timer w) then w
  else
    let this := setStartTime (Some now) (setRunning true (timer w)) in
    let w := saveTimerState (withTimer this w) in
    withAlarm true (withAlarm false w).

Definition stop (now : Z) (w : World) : World :=
  if negb (isTimerRunning (timer w)) then w
  else
    let this := timer w in
    let elapsedTime := now - JS.to_number (timerStartTime this) in
    let this :=
      setRemaining
        (Z.max 0 (timeRemainingInMilliseconds this - elapsedTime)) this in
    let this := setStartTime None (setRunning false this) in
    let w := saveTimerState (withTimer this w) in
    withAlarm false w.

Definition reset (now : Z) (w : World) : World :=
  let w := stop now w in
  let this := setPhase "work" (timer w) in
  let this :=
    setRemaining (getPhaseTimeInMilliseconds this (currentPhase this))
                 this in
  let this := setCompleted 0 this in
  saveTimerState (withTimer this w).

Definition phaseNames (phase : string) : option string :=
  if String.eqb phase "work" then Some "work session"
  else if String.eqb phase "break" then Some "short break"
  else if String.eqb phase "longBreak" then Some "long break"
  else None.

Definition showCompletionNotification (w : World) : World :=
  let this := timer w in
  let completedPhaseName := phaseNames (currentPhase this) in
  let nextPhaseName :=
    if String.eqb (currentPhase this) "work" then
      let upcomingCompletedCount := completedPomodoros this + 1 in
      if JS.rem_is_zero upcomingCompletedCount
                        (longBreakInterval (settings this))
      then "long break"
      else "short break"
    else "work session" in
  let notificationTitle :=
    JS.interpolate completedPhaseName ++ " complete!" in
  let notificationMessage := "time for your " ++ nextPhaseName in
  let w := emit (Notification notificationTitle notificationMessage) w in
  emit (Speech (notificationTitle ++ " " ++ notificationMessage)) w.

Definition complete (now : Z) (w : World) : World :=
  let w := stop now w in
  let w := showCompletionNotification w in
  let completedPhase := currentPhase (timer w) in
  let this := timer w in
  let this :=
    if String.eqb (currentPhase this) "work" then
      let this := setCompleted (completedPomodoros this + 1) this in
      if JS.rem_is_zero (completedPomodoros this)
                        (longBreakInterval (settings this))
      then setPhase "longBreak" this
      else setPhase "break" this
    else setPhase "work" this in
  let this :=
    setRemaining (getPhaseTimeInMilliseconds this (currentPhase this))
                 this in
  let w := saveTimerState (withTimer this w) in
  emit (TimerCompleted completedPhase (currentPhase (timer w))
                       (completedPomodoros (timer w))) w.

(** The object [getState] returns. *)
Module Snapshot.
Record t := mk {
  isRunning : bool;
  currentPhase : string;
  timeRemaining : Z;
  totalTime : Z;
  completedPomodoros : Z;
  startTime : option Z;
  settings : Settings
}.
End Snapshot.

Definition getState (now : Z) (this : PomodoroTimer) : Snapshot.t :=
  let currentTimeRemaining :=
    if isTimerRunning this && JS.truthy (timerStartTime this) then
      let elapsedTime := now - JS.to_number (timerStartTime this) in
      Z.max 0 (timeRemainingInMilliseconds this - elapsedTime)
    else timeRemainingInMilliseconds this in
  {| Snapshot.isRunning := isTimerRunning this;
     Snapshot.currentPhase := currentPhase this;
     Snapshot.timeRemaining := currentTimeRemaining;
     Snapshot.totalTime :=
       getPhaseTimeInMilliseconds this (currentPhase this);
     Snapshot.completedPomodoros := completedPomodoros this;
     Snapshot.startTime := timerStartTime this;
     Snapshot.settings := settings this |}.

(** *** The listeners *)

(** The [chrome.alarms.onAlarm] listener for the alarm [pomodoroTimer].
    [now] is the clock reading of [getState], [now'] the later one of the
    [stop] inside [complete]. *)
Definition onAlarm (now now' : Z) (w : World) : World :=
  let timerState := getState now (timer w) in
  if Snapshot.isRunning timerState
     && (Snapshot.timeRemaining timerState <=? 0)
  then complete now' w
  else if Snapshot.isRunning timerState then w
  else withAlarm false w.

(** The timer actions of the [chrome.runtime.onMessage] listener; an
    action it does not know is [Other]. *)
Inductive Request :=
| Start
| Stop
| Reset
| GetState
| UpdateSettings (newSettings : SettingsPatch)
| Other (action : string).

Inductive Response :=
| SuccessState (state : Snapshot.t)
| State (state : Snapshot.t)
| SuccessSettings (s : Settings)
| Failure (error : string).

(** [now] is read by the method, [now'] by the [getState] of the
    response. *)
Definition onMessage (request : Request) (now now' : Z) (w : World)
  : Response * World :=
  match request with
  | Start =>
      let w := start now w in (SuccessState (getState now' (timer w)), w)
  | Stop =>
      let w := stop now w in (SuccessState (getState now' (timer w)), w)
  | Reset =>
      let w := reset now w in (SuccessState (getState now' (timer w)), w)
  | GetState => (State (getState now (timer w)), w)
  | UpdateSettings newSettings =>
      let w := updateSettings newSettings w in
      (SuccessSettings (settings (timer w)), w)
  | Other _ => (Failure "unknown action", w)
  end.

(** *** Start of the service worker *)

(** [new PomodoroTimer()] in a new worker, over the storage and the alarm
    registration the browser kept: the constructor assigns the fields and
    calls [loadSettings], [loadTimerState] and [initializeTimer].  The two
    loads suspend at their storage read, so [initializeTimer] runs first;
    the reads are then answered in the order they were issued. *)
Definition coldStart (st : Storage) (registered : bool) : World :=
  let w := mkWorld (initializeTimer constructed) st registered [] in
  loadTimerState (loadSettings w).

(** A first run: nothing stored, no alarm, nothing emitted. *)
Definition freshWorld : World := coldStart emptyStorage false.

(** *** Sequences of [start] and [stop] *)

Inductive Command := DoStart | DoStop.

Definition exec (c : Command) (now : Z) (w : World) : World :=
  match c with
  | DoStart => start now w
  | DoStop => stop now w
  end.

Fixpoint run (cs : list (Command * Z)) (w : World) : World :=
  match cs with
  | [] => w
  | (c, now) :: cs' => run cs' (exec c now w)
  end.

(** Clock readings that never go back. *)
Fixpoint nondecreasing (ts : list Z) : Prop :=
  match ts with
  | a :: (b :: _) as tl => a <= b /\ nondecreasing tl
  | _ => True
  end.

End Background.

(** ** The settings form of the popup *)

Module Popup.
Import Background.

(** The condition of the [if] that guards the save handler. *)
Definition outOfRange (workTime shortBreak longBreak longBreakInterval : Z)
  : bool :=
  (workTime <? 1) || (workTime >? 60)
  || (shortBreak <? 1) || (shortBreak >? 30)
  || (longBreak <? 1) || (longBreak >? 60)
  || (longBreakInterval <? 2) || (longBreakInterval >? 10).

Definition invalidValuesAlert : string :=
  "please enter valid values:" ++ JS.nl
  ++ "- work time: 1-60 minutes" ++ JS.nl
  ++ "- short break: 1-30 minutes" ++ JS.nl
  ++ "- long break: 1-60 minutes" ++ JS.nl
  ++ "- long break interval: 2-10 pomodoros".

Inductive SaveResult :=
| Alerted (message : string)
| Saved (response : Response).

(** The click handler of the save button.  The four arguments are the
    [parseInt] of the four inputs when each of them is a number (the guard
    on a field that is [NaN] is in [SettingsForm]); the world is the one of
    the background
    worker the popup talks to.  On valid values [saveSettings] writes the
    key [timerSettings] and the message [updateSettings] is sent; what
    follows in the handler (hiding the form, refreshing the display through
    [getState]) changes nothing here. *)
Definition saveButtonClick
           (workTime shortBreak longBreak longBreakInterval : Z)
           (now now' : Z) (w : World) : SaveResult * World :=
  if outOfRange workTime shortBreak longBreak longBreakInterval
  then (Alerted invalidValuesAlert, w)
  else
    let newSettings :=
      mkSettings workTime shortBreak longBreak longBreakInterval in
    let w :=
      withStorage (mkStorage (timerState (storage w))
                             (Some (full newSettings))) w in
    let (response, w) :=
      onMessage (UpdateSettings (full newSettings)) now now' w in
    (Saved response, w).

End Popup.

(** ** Vocabulary of the statements *)

Module Scenario.
Import Background.

(** One phase played to its end: started at the first clock reading,
    completed at the second. *)
Definition playPhase (times : Z * Z) (w : World) : World :=
  complete (snd times) (start (fst times) w).

Definition playPhases (ts : list (Z * Z)) (w : World) : World :=
  fold_left (fun w times => playPhase times w) ts w.

(** The phase the timer is in after each of the phases played. *)
Fixpoint phasesAfter (ts : list (Z * Z)) (w : World) : list string :=
  match ts with
  | [] => []
  | times :: ts' =>
      let w' := playPhase times w in
      currentPhase (timer w') :: phasesAfter ts' w'
  end.

(** The worker configured with the settings [s] before anything runs:
    a first run followed by an [updateSettings] with all four keys. *)
Definition configured (s : Settings) : World :=
  updateSettings (full s) freshWorld.

(** The emissions [w'] holds beyond those of [w]. *)
Definition emittedSince (w w' : World) : list Emission :=
  skipn (length (outbox w)) (outbox w').

Definition isTimerCompleted (e : Event) : bool :=
  match e with
  | TimerCompleted _ _ _ => true
  | _ => false
  end.

(** How many [timerCompleted] messages were sent so far. *)
Definition completionsSent (w : World) : nat :=
  length (filter (fun m => isTimerCompleted (event m)) (outbox w)).

(** The timer, the storage and the outbox are the same; only the alarm
    registration may differ. *)
Definition sameClock (w w' : World) : Prop :=
  timer w' = timer w /\ storage w' = storage w /\ outbox w' = outbox w.

(** "Every [timerCompleted] message that [complete] sends leaves while the
    timer still holds the completed phase and the count from before." *)
Definition tupleSentBeforeMutation (now : Z) (w : World) : Prop :=
  forall m cp np n,
    In m (emittedSince w (complete now w)) ->
    event m = TimerCompleted cp np n ->
    currentPhase (seen m) = currentPhase (timer w)
    /\ completedPomodoros (seen m) = completedPomodoros (timer w).

(** The same five fields; the settings are not compared. *)
Definition sameClockFields (t u : PomodoroTimer) : Prop :=
  isTimerRunning u = isTimerRunning t
  /\ currentPhase u = currentPhase t
  /\ timeRemainingInMilliseconds u = timeRemainingInMilliseconds t
  /\ completedPomodoros u = completedPomodoros t
  /\ timerStartTime u = timerStartTime t.

(** The remaining time lies within the current phase, and a running
    timer was started at a clock reading no later than [bound]. *)
Definition clockInv (bound : Z) (t : PomodoroTimer) : Prop :=
  0 <= timeRemainingInMilliseconds t
       <= getPhaseTimeInMilliseconds t (currentPhase t)
  /\ (isTimerRunning t = true ->
      exists s, timerStartTime t = Some s /\ s <= bound).

End Scenario.

(** ** Everything that reaches the worker *)

Module Session.
Import Background.

(** A message of the popup or a firing of the recurring alarm, with the two
    clock readings its handler takes. *)
Inductive Input :=
| Message (request : Request) (now now' : Z)
| Alarm (now now' : Z).

Definition handle (i : Input) (w : World) : World :=
  match i with
  | Message request now now' => snd (onMessage request now now' w)
  | Alarm now now' => onAlarm now now' w
  end.

(** The inputs handled one after another, each handler run to its end
    before the next input is delivered.  The methods are asynchronous, so
    in the worker an input delivered while an earlier handler waits (for
    the storage or for the alarm service) runs between its steps; such
    interleavings are not part of this definition.  The registration of the
    alarm, which [start] and [stop] change after their waits, depends on
    them, and nothing is stated about the alarm over sequences of inputs. *)
Definition handleAll (inputs : list Input) (w : World) : World :=
  fold_left (fun w i => handle i w) inputs w.

Definition readings (i : Input) : list Z :=
  match i with
  | Message _ now now' => [now; now']
  | Alarm now now' => [now; now']
  end.

Definition changesSettings (i : Input) : bool :=
  match i with
  | Message (UpdateSettings _) _ _ => true
  | _ => false
  end.

Definition isSet (v : option Z) : bool :=
  match v with
  | Some _ => true
  | None => false
  end.

(** The three phase names the timer itself ever assigns. *)
Definition knownPhase (p : string) : Prop :=
  p = "work" \/ p = "break" \/ p = "longBreak".

(** The record [saveTimerState] writes for a timer. *)
Definition projection (t : PomodoroTimer) : Stored.t :=
  Stored.mk (isTimerRunning t) (currentPhase t) (completedPomodoros t)
            (timerStartTime t) (Some (timeRemainingInMilliseconds t)).

Definition nonNegative (s : Settings) : Prop :=
  0 <= workTime s /\ 0 <= shortBreak s /\ 0 <= longBreak s.

(** What holds of every world reached from a first run: the start time is
    set exactly while the timer runs; the phase is one of the three; the
    completed count is not negative. *)
Definition coherent (w : World) : Prop :=
  isSet (timerStartTime (timer w)) = isTimerRunning (timer w)
  /\ knownPhase (currentPhase (timer w))
  /\ 0 <= completedPomodoros (timer w).

(** What is stored is what a new worker needs: the stored timer state, if
    there is one, is the timer in memory; the stored settings are the
    settings in memory; the start time is not the reading 0. *)
Definition persisted (w : World) : Prop :=
  (timerState (storage w) = None
   \/ timerState (storage w) = Some (projection (timer w)))
  /\ timerSettings (storage w) = Some (full (settings (timer w)))
  /\ timerStartTime (timer w) <> Some 0.

Definition readsZero (i : Input) : bool :=
  existsb (fun reading => reading =? 0) (readings i).

End Session.

(** ** The timer display of the popup *)

Module StudyBuddyTimer.
Import Background.

(** [n.toString()] of an integer. *)
Definition toString (n : Z) : string :=
  DecimalString.NilZero.string_of_int (Z.to_int n).

(** [s.padStart(2, "0")] *)
Definition padStart2 (s : string) : string :=
  match String.length s with
  | 0%nat => "00"
  | 1%nat => "0" ++ s
  | _ => s
  end.

(** [Math.ceil(a / b)] on integers, [b] positive.  The quotient of the
    source is a floating-point number; for the magnitudes of a timer its
    ceiling is the exact one. *)
Definition ceilDiv (a b : Z) : Z := - ((- a) / b).

Definition formatTimeAsMinutesSeconds (milliseconds : Z) : string :=
  let totalSeconds := ceilDiv milliseconds 1000 in
  let minutes := totalSeconds / 60 in
  let seconds := Z.rem totalSeconds 60 in
  padStart2 (toString minutes) ++ ":" ++ padStart2 (toString seconds).

(** The table [phaseNames] of [showCompletionNotification]. *)
Definition phaseNames (phase : string) : option string :=
  if String.eqb phase "work" then Some "work session"
  else if String.eqb phase "break" then Some "short break"
  else if String.eqb phase "longBreak" then Some "long break"
  else None.

(** The table [nextPhaseNames], after the adjustment for a long break. *)
Definition nextPhaseNames (nextPhase phase : string) : option string :=
  if String.eqb phase "work" then
    if String.eqb nextPhase "longBreak" then Some "long break"
    else Some "short break"
  else if String.eqb phase "break" then Some "work session"
  else if String.eqb phase "longBreak" then Some "work session"
  else None.

(** [name || "session"]; no name of the tables is empty. *)
Definition orSession (name : option string) : string :=
  match name with
  | Some n => n
  | None => "session"
  end.

(** The party popper of the alert, as its four UTF-8 bytes. *)
Definition partyPopper : string :=
  String (Ascii.ascii_of_nat 240)
    (String (Ascii.ascii_of_nat 159)
       (String (Ascii.ascii_of_nat 142)
          (String (Ascii.ascii_of_nat 137) EmptyString))).

(** The text [showCompletionNotification] alerts for the data of a
    [timerCompleted] message. *)
Definition showCompletionNotification
           (completedPhase nextPhase : string) (completedPomodoros : Z)
  : string :=
  let completedPhaseName := orSession (phaseNames completedPhase) in
  let nextPhaseName :=
    orSession (nextPhaseNames nextPhase completedPhase) in
  partyPopper ++ " " ++ completedPhaseName ++ " complete!"
  ++ JS.nl ++ JS.nl ++ "Time to start your " ++ nextPhaseName ++ "."
  ++ JS.nl ++ JS.nl ++ "Pomodoros completed: " ++ toString completedPomodoros.

(** [TimerSettings.getSettings]: the defaults of the popup with the stored
    settings spread over them. *)
Definition getSettings (st : Storage) : Settings :=
  match timerSettings st with
  | Some stored => spread (mkSettings 25 5 15 4) stored
  | None => mkSettings 25 5 15 4
  end.

(** Reading a display of two digits, a colon and two digits back as a
    number of seconds. *)
Definition digit (c : Ascii.ascii) : option Z :=
  let n := Ascii.nat_of_ascii c in
  if ((48 <=? n) && (n <=? 57))%nat then Some (Z.of_nat (n - 48)) else None.

Definition readDisplay (s : string) : option Z :=
  match s with
  | String a (String b (String c (String d (String e EmptyString)))) =>
      match digit a, digit b, digit d, digit e with
      | Some m1, Some m2, Some s1, Some s2 =>
          if Ascii.eqb c ":"%char
          then Some ((10 * m1 + m2) * 60 + (10 * s1 + s2))
          else None
      | _, _, _, _ => None
      end
  | _ => None
  end.

End StudyBuddyTimer.

(** ** Strings as the website list uses them *)

Module Text.

Definition between (lo hi : nat) (c : ascii) : bool :=
  ((lo <=? nat_of_ascii c) && (nat_of_ascii c <=? hi))%nat.

Definition isUpper : ascii -> bool := between 65 90.
Definition isLower : ascii -> bool := between 97 122.
Definition isDigit : ascii -> bool := between 48 57.

(** The class [[a-zA-Z0-9]]. *)
Definition isAlnum (c : ascii) : bool := isLower c || isUpper c || isDigit c.

(** The class [[a-zA-Z0-9-]]. *)
Definition isLabelChar (c : ascii) : bool := isAlnum c || Ascii.eqb c "-".

Definition lowerChar (c : ascii) : ascii :=
  if isUpper c then ascii_of_nat (nat_of_ascii c + 32) else c.

(** [s.toLowerCase()] on the characters of ASCII. *)
Fixpoint toLowerCase (s : string) : string :=
  match s with
  | EmptyString => EmptyString
  | String c s' => String (lowerChar c) (toLowerCase s')
  end.

(** [s.includes(needle)] *)
Fixpoint includes (s needle : string) : bool :=
  String.prefix needle s
  || match s with
     | EmptyString => false
     | String _ s' => includes s' needle
     end.

(** What follows the prefix [p] in [s], when [s] starts with [p]. *)
Fixpoint stripPrefix (p s : string) : option string :=
  match p, s with
  | EmptyString, _ => Some s
  | String a p', String b s' =>
      if Ascii.eqb a b then stripPrefix p' s' else None
  | String _ _, EmptyString => None
  end.

(** [s.replace(/^p/, "")] for a literal [p]. *)
Definition dropPrefix (p s : string) : string :=
  match stripPrefix p s with
  | Some rest => rest
  | None => s
  end.

(** [s.replace(/^https?:\/\//, "")] *)
Definition dropProtocol (s : string) : string :=
  match stripPrefix "https://" s with
  | Some rest => rest
  | None => dropPrefix "http://" s
  end.

(** [s.replace(/\/$/, "")] *)
Fixpoint dropTrailingSlash (s : string) : string :=
  match s with
  | EmptyString => EmptyString
  | String c EmptyString => if Ascii.eqb c "/" then EmptyString else s
  | String c s' => String c (dropTrailingSlash s')
  end.

(** [s.split(c)] for a separator of one character. *)
Fixpoint split (c : ascii) (s : string) : list string :=
  match s with
  | EmptyString => [EmptyString]
  | String a s' =>
      if Ascii.eqb a c then EmptyString :: split c s'
      else match split c s' with
           | part :: parts => String a part :: parts
           | [] => [String a EmptyString]
           end
  end.

(** [parts[0]] of the array a split returns, which is never empty. *)
Definition first (parts : list string) : string := hd EmptyString parts.

(** A match of [[a-zA-Z0-9]([a-zA-Z0-9-]{0,61}[a-zA-Z0-9])?] over a whole
    string. *)
Definition validLabel (label : string) : bool :=
  match list_ascii_of_string label with
  | [] => false
  | [c] => isAlnum c
  | c :: rest =>
      isAlnum c
      && (List.length rest <=? 62)%nat
      && forallb isLabelChar (removelast rest)
      && isAlnum (last rest c)
  end.

(** [domainPattern.test(s)]: the pattern is one such label followed by any
    number of groups of a dot and a label, anchored at both ends; no label
    holds a dot, so the labels are the parts between the dots. *)
Definition domainPattern (s : string) : bool :=
  forallb validLabel (split "." s).

(** A lower-case letter, a digit, a hyphen or a dot. *)
Definition isHostChar (c : ascii) : bool :=
  isLower c || isDigit c || Ascii.eqb c "-" || Ascii.eqb c ".".

End Text.

(** ** The gate of the background worker *)

Module Blocking.
Import Text.

(** The variable [blockedWebsites] of the worker, the keys
    [blockedWebsites] and [extensionEnabled] of the storage, and the list
    the popup shows. *)
Record Gate := mkGate {
  blockedWebsites : list string;
  storedWebsites : option (list string);
  extensionEnabled : option bool;
  displayed : list string
}.

(** The list the worker starts with. *)
Definition initialBlockedWebsites : list string :=
  [ "instagram.com"; "youtube.com"; "facebook.com"; "twitter.com";
    "tiktok.com"; "reddit.com"; "netflix.com"; "hulu.com";
    "disneyplus.com"; "amazon.com"; "ebay.com"; "etsy.com";
    "pinterest.com"; "snapchat.com"; "twitch.tv" ].

Definition defaultBlockedWebsites : list string :=
  [ "instagram.com"; "youtube.com" ].

Definition motivationUrl : string := "https://www.youtube.com".

Definition loadBlockedWebsites (g : Gate) : Gate :=
  match storedWebsites g with
  | Some (site :: sites) =>
      mkGate (site :: sites) (storedWebsites g) (extensionEnabled g)
             (displayed g)
  | _ =>
      mkGate defaultBlockedWebsites (Some defaultBlockedWebsites)
             (extensionEnabled g) (displayed g)
  end.

(** The case [updateBlockedWebsites] of the message listener. *)
Definition updateBlockedWebsites (websites : list string) (g : Gate) : Gate :=
  mkGate websites (storedWebsites g) (extensionEnabled g) (displayed g).

Section Url.

(** [new URL(url).hostname], or nothing when the constructor throws. *)
Variable hostname : string -> option string.

Definition shouldRedirectUrl (url : string) (g : Gate) : bool :=
  match hostname url with
  | Some host =>
      existsb (fun site => includes (toLowerCase host) site)
              (blockedWebsites g)
  | None => false
  end.

(** The [chrome.tabs.onUpdated] listener: the URL the tab is sent to, if
    any. *)
Definition onUpdated (status : string) (tabUrl : option string) (g : Gate)
  : option string :=
  match tabUrl with
  | Some url =>
      if String.eqb status "loading" && negb (String.eqb url "") then
        let enabled :=
          match extensionEnabled g with
          | Some false => false
          | _ => true
          end in
        if enabled && shouldRedirectUrl url g then Some motivationUrl
        else None
      else None
  | None => None
  end.

End Url.

End Blocking.

(** ** The website list of the popup *)

Module Websites.
Import Text Blocking.

(** [list || []]: an array, even an empty one, is truthy. *)
Definition orEmpty (l : option (list string)) : list string :=
  match l with
  | Some l => l
  | None => []
  end.

Definition displayWebsites (websites : list string) (g : Gate) : Gate :=
  mkGate (blockedWebsites g) (storedWebsites g) (extensionEnabled g) websites.

Definition store (websites : list string) (g : Gate) : Gate :=
  mkGate (blockedWebsites g) (Some websites) (extensionEnabled g)
         (displayed g).

Definition loadBlockedWebsites (g : Gate) : Gate :=
  displayWebsites (orEmpty (storedWebsites g)) g.

Definition cleanWebsiteInput (website : string) : option string :=
  let cleaned := dropProtocol website in
  let cleaned := dropPrefix "www." cleaned in
  let cleaned := dropTrailingSlash cleaned in
  let cleaned := first (split "/" cleaned) in
  let cleaned := first (split "?" cleaned) in
  if (String.length cleaned =? 0)%nat || includes cleaned " " then None
  else if negb (domainPattern cleaned) then None
  else Some (toLowerCase cleaned).

Inductive Feedback :=
| Alert (message : string)
| Success (message : string)
| Quiet.

(** The popup sends its message to a worker that is awake. *)
Definition addWebsite (website : string) (g : Gate) : Feedback * Gate :=
  match cleanWebsiteInput website with
  | None => (Alert "please enter a valid website (e.g., facebook.com)", g)
  | Some cleanedWebsite =>
      let blockedWebsites := orEmpty (storedWebsites g) in
      if existsb (String.eqb cleanedWebsite) blockedWebsites
      then (Alert "this website is already in your blocked list!", g)
      else
        let blockedWebsites := (blockedWebsites ++ [cleanedWebsite])%list in
        let g := store blockedWebsites g in
        let g := displayWebsites blockedWebsites g in
        let g := updateBlockedWebsites blockedWebsites g in
        (Success (cleanedWebsite ++ " added to blocked list!"), g)
  end.

Definition removeWebsite (website : string) (g : Gate) : Gate :=
  let blockedWebsites := orEmpty (storedWebsites g) in
  let updatedWebsites :=
    filter (fun site => negb (String.eqb site website)) blockedWebsites in
  let g := store updatedWebsites g in
  let g := displayWebsites updatedWebsites g in
  updateBlockedWebsites updatedWebsites g.

Definition clearAllWebsites (g : Gate) : Gate :=
  let g := store [] g in
  let g := displayWebsites [] g in
  updateBlockedWebsites [] g.

Section Url.

Variable hostname : string -> option string.

Definition checkIfCurrentTabIsBlocked (url : option string) (g : Gate)
  : bool :=
  match url with
  | None => false
  | Some url =>
      if String.eqb url "" then false
      else
        let blockedWebsites := orEmpty (storedWebsites g) in
        if (List.length blockedWebsites =? 0)%nat then false
        else
          match hostname url with
          | Some host =>
              existsb (fun site => includes (toLowerCase host) site)
                      blockedWebsites
          | None => false
          end
  end.

End Url.

(** What can happen to the list: the worker starts and loads it, or the
    user adds, removes or clears in the popup. *)
Inductive Action :=
| WorkerStart
| Add (website : string)
| Remove (website : string)
| ClearAll.

Definition act (a : Action) (g : Gate) : Gate :=
  match a with
  | WorkerStart => Blocking.loadBlockedWebsites g
  | Add website => snd (addWebsite website g)
  | Remove website => removeWebsite website g
  | ClearAll => clearAllWebsites g
  end.

Definition actAll (actions : list Action) (g : Gate) : Gate :=
  fold_left (fun g a => act a g) actions g.

(** A site that is not empty and holds only lower-case letters, digits,
    hyphens and dots. *)
Definition cleanSite (site : string) : Prop :=
  site <> EmptyString
  /\ forallb isHostChar (list_ascii_of_string site) = true.

End Websites.

(** ** The fields of the settings form *)

Module SettingsForm.

(** [parseInt(input.value)]: an integer, or [NaN], here [None], for a field
    that is empty or does not start with a number. *)
Definition Parsed : Type := option Z.

(** [a < b] and [a > b] for a parsed [a]: a comparison with [NaN] is
    false. *)
Definition below (a : Parsed) (b : Z) : bool :=
  match a with
  | Some x => x <? b
  | None => false
  end.

Definition above (a : Parsed) (b : Z) : bool :=
  match a with
  | Some x => x >? b
  | None => false
  end.

(** The condition of the [if] that guards the save handler, on what
    [parseInt] gives. *)
Definition rangeGuard
           (workTime shortBreak longBreak longBreakInterval : Parsed)
  : bool :=
  below workTime 1 || above workTime 60
  || below shortBreak 1 || above shortBreak 30
  || below longBreak 1 || above longBreak 60
  || below longBreakInterval 2 || above longBreakInterval 10.

(** A parsed field that is a number outside [lo] to [hi]. *)
Definition outside (lo hi : Z) (a : Parsed) : Prop :=
  exists x : Z, a = Some x /\ (x < lo \/ hi < x).

End SettingsForm.

(** ** Properties *)

Import Background Scenario.

(** *** Proof support *)

Ltac case_running w :=
  let E := fresh "Erun" in
  destruct (isTimerRunning (timer w)) eqn:E.

Lemma rem_is_zero_true (a b : Z) :
  JS.rem_is_zero a b = true <-> b <> 0 /\ Z.rem a b = 0.
Proof.
  unfold JS.rem_is_zero.
  destruct (Z.eqb_spec b 0) as [-> | Hb].
  - split; [discriminate | intros [H _]; now elim H].
  - rewrite Z.eqb_eq. tauto.
Qed.

Lemma stop_paused (now : Z) (w : World) :
  isTimerRunning (timer w) = false -> stop now w = w.
Proof. unfold stop. now intros ->. Qed.

Lemma stop_not_running (now : Z) (w : World) :
  isTimerRunning (timer (stop now w)) = false.
Proof. unfold stop. case_running w; simpl; auto. Qed.

(** What [stop] does to a running timer. *)
Lemma stop_running (now : Z) (w : World) :
  isTimerRunning (timer w) = true ->
  timer (stop now w) =
    {| isTimerRunning := false;
       currentPhase := currentPhase (timer w);
       timeRemainingInMilliseconds :=
         Z.max 0 (timeRemainingInMilliseconds (timer w)
                  - (now - JS.to_number (timerStartTime (timer w))));
       completedPomodoros := completedPomodoros (timer w);
       timerStartTime := None;
       settings := settings (timer w) |}.
Proof. unfold stop. now intros ->. Qed.

Lemma stop_frame (now : Z) (w : World) :
  currentPhase (timer (stop now w)) = currentPhase (timer w)
  /\ completedPomodoros (timer (stop now w)) = completedPomodoros (timer w)
  /\ settings (timer (stop now w)) = settings (timer w)
  /\ outbox (stop now w) = outbox w.
Proof. unfold stop. case_running w; simpl; auto. Qed.

Lemma start_keeps (now : Z) (w : World) :
  timeRemainingInMilliseconds (timer (start now w))
  = timeRemainingInMilliseconds (timer w)
  /\ currentPhase (timer (start now w)) = currentPhase (timer w)
  /\ settings (timer (start now w)) = settings (timer w).
Proof. unfold start. case_running w; simpl; auto. Qed.

(** *** C8: [start] *)

(** C8. [start] returns at once when the timer is already running, leaving
    the whole world as it was; otherwise it sets [timerStartTime] to the
    clock reading and [isTimerRunning] to [true].  In both cases the
    remaining time, the phase, the completed count and the settings are the
    ones from before. *)
Theorem start_frame (now : Z) (w : World) :
  (isTimerRunning (timer w) = true -> start now w = w)
  /\ (isTimerRunning (timer w) = false ->
      timerStartTime (timer (start now w)) = Some now
      /\ isTimerRunning (timer (start now w)) = true)
  /\ timeRemainingInMilliseconds (timer (start now w))
     = timeRemainingInMilliseconds (timer w)
  /\ currentPhase (timer (start now w)) = currentPhase (timer w)
  /\ completedPomodoros (timer (start now w)) = completedPomodoros (timer w)
  /\ settings (timer (start now w)) = settings (timer w).
Proof.
  unfold start. case_running w; simpl.
  - repeat split; auto; discriminate.
  - repeat split; auto; discriminate.
Qed.

Lemma start_frame_witness :
  start 7 (start 5 freshWorld) = start 5 freshWorld
  /\ timerStartTime (timer (start 5 freshWorld)) = Some 5.
Proof.
  split.
  - apply (proj1 (start_frame 7 (start 5 freshWorld))). reflexivity.
  - apply (proj1 (proj2 (start_frame 5 freshWorld))). reflexivity.
Defined.

(** *** C9: [stop] twice *)

(** C9. A second [stop] right after a first one changes nothing: the world
    after both calls is the world after the first. *)
Theorem stop_idempotent (now now' : Z) (w : World) :
  stop now' (stop now w) = stop now w.
Proof. apply stop_paused, stop_not_running. Qed.

(** *** C2: freeze on [stop], resume from the frozen value *)

(** What [getState] reports for a running timer whose start time is a
    non-zero clock reading. *)
Lemma getState_running (now s : Z) (t : PomodoroTimer) :
  isTimerRunning t = true -> timerStartTime t = Some s -> s <> 0 ->
  Snapshot.timeRemaining (getState now t)
  = Z.max 0 (timeRemainingInMilliseconds t - (now - s)).
Proof.
  intros Hr Hs Hz. unfold getState; simpl. rewrite Hr, Hs; simpl.
  destruct (Z.eqb_spec s 0); [contradiction | reflexivity].
Qed.

(** A start time of [0] is falsy in [getState]'s guard: the elapsed time is
    not subtracted. *)
Lemma getState_running_epoch (now : Z) (t : PomodoroTimer) :
  timerStartTime t = Some 0 ->
  Snapshot.timeRemaining (getState now t) = timeRemainingInMilliseconds t.
Proof.
  intros Hs. unfold getState; simpl. rewrite Hs; simpl.
  now rewrite andb_false_r.
Qed.

(** The pause and resume scenario holds from every start reading other
    than [0]. *)
Lemma resume_scenario_from (t0 : Z) :
  t0 <> 0 -> t0 + 50000 <> 0 ->
  let w1 := start t0 freshWorld in
  let w2 := stop (t0 + 10000) w1 in
  let w3 := start (t0 + 50000) w2 in
  Snapshot.timeRemaining (getState (t0 + 10000) (timer w1))
  = 25 * 60 * 1000 - 10000
  /\ timeRemainingInMilliseconds (timer w2) = 25 * 60 * 1000 - 10000
  /\ isTimerRunning (timer w2) = false
  /\ Snapshot.timeRemaining (getState (t0 + 60000) (timer w3))
     = 25 * 60 * 1000 - 10000 - 10000.
Proof.
  intros H0 H5; cbv zeta.
  rewrite (getState_running (t0 + 10000) t0) by (auto; reflexivity).
  rewrite (getState_running (t0 + 60000) (t0 + 50000)) by (auto; reflexivity).
  destruct (start_keeps (t0 + 50000) (stop (t0 + 10000) (start t0 freshWorld)))
    as (-> & _).
  rewrite stop_running by reflexivity.
  cbn [timeRemainingInMilliseconds isTimerRunning].
  change (timerStartTime (timer (start t0 freshWorld))) with (Some t0).
  change (timeRemainingInMilliseconds (timer (start t0 freshWorld)))
    with 1500000.
  cbn [JS.to_number]. repeat split; lia.
Qed.

(** C2. For every running timer whose start time is the reading [s],
    [stop] at the reading [now] sets the remaining time to the maximum of
    0 and the remaining time less [now - s], the running flag to false and
    the start time to null, and keeps phase, completed count and settings.
    So resuming is exact: let a first run with the defaults be started at
    any reading [t0] other than 0, the readings of the scenario counted
    from it.  [getState] 10000 ms later reports [25*60*1000 - 10000];
    [stop] at that reading leaves [25*60*1000 - 10000] with the timer
    paused; after a [start] 50000 ms after [t0], [getState] 60000 ms after
    [t0] reports [25*60*1000 - 10000 - 10000]. *)
Theorem stop_freezes_resume_exact :
  (forall (now s : Z) (w : World),
      isTimerRunning (timer w) = true ->
      timerStartTime (timer w) = Some s ->
      timeRemainingInMilliseconds (timer (stop now w))
      = Z.max 0 (timeRemainingInMilliseconds (timer w) - (now - s))
      /\ isTimerRunning (timer (stop now w)) = false
      /\ timerStartTime (timer (stop now w)) = None
      /\ currentPhase (timer (stop now w)) = currentPhase (timer w)
      /\ completedPomodoros (timer (stop now w))
         = completedPomodoros (timer w)
      /\ settings (timer (stop now w)) = settings (timer w))
  /\ (forall t0 : Z,
         t0 <> 0 -> t0 + 50000 <> 0 ->
         let w1 := start t0 freshWorld in
         let w2 := stop (t0 + 10000) w1 in
         let w3 := start (t0 + 50000) w2 in
         Snapshot.timeRemaining (getState (t0 + 10000) (timer w1))
         = 25 * 60 * 1000 - 10000
         /\ timeRemainingInMilliseconds (timer w2) = 25 * 60 * 1000 - 10000
         /\ isTimerRunning (timer w2) = false
         /\ Snapshot.timeRemaining (getState (t0 + 60000) (timer w3))
            = 25 * 60 * 1000 - 10000 - 10000).
Proof.
  split.
  - intros now s w Hr Hs. rewrite (stop_running now w Hr), Hs.
    repeat split.
  - exact resume_scenario_from.
Qed.

Lemma stop_freezes_resume_exact_witness :
  timeRemainingInMilliseconds (timer (stop 1010000 (start 1000000 freshWorld)))
  = Z.max 0 (timeRemainingInMilliseconds (timer (start 1000000 freshWorld))
             - (1010000 - 1000000))
  /\ Snapshot.timeRemaining
       (getState (1000000 + 60000)
          (timer (start (1000000 + 50000)
                    (stop (1000000 + 10000) (start 1000000 freshWorld)))))
     = 25 * 60 * 1000 - 10000 - 10000.
Proof.
  destruct stop_freezes_resume_exact as [Hstop Hscenario].
  split.
  - apply (Hstop 1010000 1000000 (start 1000000 freshWorld));
      reflexivity.
  - apply (Hscenario 1000000); discriminate.
Defined.

(** *** C4: the phase after a completion *)

Lemma complete_timer (now : Z) (w : World) :
  timer (complete now w) =
    let t := timer (stop now w) in
    let t' :=
      if String.eqb (currentPhase t) "work" then
        if JS.rem_is_zero (completedPomodoros t + 1)
                          (longBreakInterval (settings t))
        then setPhase "longBreak" (setCompleted (completedPomodoros t + 1) t)
        else setPhase "break" (setCompleted (completedPomodoros t + 1) t)
      else setPhase "work" t in
    setRemaining (getPhaseTimeInMilliseconds t' (currentPhase t')) t'.
Proof.
  unfold complete, showCompletionNotification; simpl.
  destruct (String.eqb (currentPhase (timer (stop now w))) "work"); simpl;
    [destruct (JS.rem_is_zero _ _) |]; reflexivity.
Qed.

(** C4. Completing a work phase increments the completed count, which is
    then positive; the next phase is the long break exactly when the new
    count is positive and a multiple of [longBreakInterval] (the remainder
    by a non-zero interval is 0), and the short break otherwise.  Completing any other phase leads to work and keeps the
    count.  From a first run with the default 25 minutes and interval 4,
    seven phases played in a row, four of them work, go through short
    break, work, short break, work, short break, work, long break, and the
    count is then 4. *)
Theorem complete_next_phase :
  (forall (now : Z) (w : World),
      0 <= completedPomodoros (timer w) ->
      let w' := complete now w in
      let interval := longBreakInterval (settings (timer w)) in
      (currentPhase (timer w) = "work" ->
       completedPomodoros (timer w') = completedPomodoros (timer w) + 1
       /\ 0 < completedPomodoros (timer w')
       /\ (interval <> 0
           /\ Z.rem (completedPomodoros (timer w')) interval = 0
           /\ 0 < completedPomodoros (timer w') ->
           currentPhase (timer w') = "longBreak")
       /\ (~ (interval <> 0
              /\ Z.rem (completedPomodoros (timer w')) interval = 0
              /\ 0 < completedPomodoros (timer w')) ->
           currentPhase (timer w') = "break"))
      /\ (currentPhase (timer w) <> "work" ->
          currentPhase (timer w') = "work"
          /\ completedPomodoros (timer w') = completedPomodoros (timer w)))
  /\ (forall t1 t2 t3 t4 t5 t6 t7 : Z * Z,
         workTime (settings (timer freshWorld)) = 25
         /\ longBreakInterval (settings (timer freshWorld)) = 4
         /\ currentPhase (timer freshWorld) = "work"
         /\ phasesAfter [t1; t2; t3; t4; t5; t6; t7] freshWorld
            = ["break"; "work"; "break"; "work"; "break"; "work";
               "longBreak"]
         /\ completedPomodoros
              (timer (playPhases [t1; t2; t3; t4; t5; t6; t7] freshWorld))
            = 4).
Proof.
  split.
  - intros now w Hc w' interval. subst w'.
    destruct (stop_frame now w) as (Hp & Hn & Hs & _).
    rewrite complete_timer; cbv zeta. rewrite Hp, Hn, Hs. fold interval.
    split.
    + intros ->; simpl.
      destruct (JS.rem_is_zero (completedPomodoros (timer w) + 1) interval)
        eqn:E; simpl.
      * apply rem_is_zero_true in E.
        split; [reflexivity | split; [lia | split; [reflexivity |]]].
        intros H; exfalso; apply H.
        split; [tauto | split; [tauto | lia]].
      * split; [reflexivity | split; [lia | split; [| reflexivity]]].
        intros (H1 & H2 & _).
        assert (JS.rem_is_zero (completedPomodoros (timer w) + 1) interval
                = true) by (apply rem_is_zero_true; tauto).
        congruence.
    + intros Hw. apply String.eqb_neq in Hw. rewrite Hw; simpl. now rewrite Hn.
  - intros. repeat split; reflexivity.
Qed.

Lemma complete_next_phase_witness :
  currentPhase (timer (complete 9 freshWorld)) = "break"
  /\ currentPhase (timer (complete 11 (complete 9 freshWorld))) = "work".
Proof.
  split.
  - assert (H0 : 0 <= completedPomodoros (timer freshWorld))
      by (simpl; lia).
    destruct (proj1 complete_next_phase 9 freshWorld H0) as [Hw _].
    destruct (Hw eq_refl) as (_ & _ & _ & Hb).
    apply Hb. intros (_ & H & _). vm_compute in H. discriminate.
  - assert (H1 : 0 <= completedPomodoros (timer (complete 9 freshWorld)))
      by (simpl; lia).
    destruct (proj1 complete_next_phase 11 (complete 9 freshWorld) H1)
      as [_ Hn].
    apply Hn. vm_compute. discriminate.
Defined.

(** *** C5: the alarm listener *)

Lemma complete_not_running (now : Z) (w : World) :
  isTimerRunning (timer (complete now w)) = false.
Proof.
  rewrite complete_timer; cbv zeta.
  pose proof (stop_not_running now w) as H.
  destruct (String.eqb _ "work"); [destruct (JS.rem_is_zero _ _) |];
    simpl; exact H.
Qed.

Lemma complete_reseeds (now : Z) (w : World) :
  timeRemainingInMilliseconds (timer (complete now w))
  = getPhaseTimeInMilliseconds (timer (complete now w))
      (currentPhase (timer (complete now w))).
Proof.
  rewrite complete_timer; cbv zeta.
  destruct (String.eqb _ "work"); [destruct (JS.rem_is_zero _ _) |];
    reflexivity.
Qed.

Lemma complete_changes_phase (now : Z) (w : World) :
  currentPhase (timer (complete now w)) <> currentPhase (timer w).
Proof.
  rewrite complete_timer; cbv zeta.
  destruct (stop_frame now w) as (Hp & _). rewrite Hp.
  destruct (String.eqb_spec (currentPhase (timer w)) "work") as [-> | Hn].
  - destruct (JS.rem_is_zero _ _); simpl; discriminate.
  - simpl. congruence.
Qed.

(** The three emissions of [complete]: notification and speech carry the
    timer as [stop] left it, the message the timer as it was saved. *)
Lemma complete_outbox (now : Z) (w : World) :
  let before := timer (stop now w) in
  let after := timer (complete now w) in
  let title :=
    JS.interpolate (phaseNames (currentPhase (timer w))) ++ " complete!" in
  let message :=
    "time for your " ++ JS.interpolate (phaseNames (currentPhase after)) in
  outbox (complete now w) =
    (outbox w
     ++ [ mkEmission (Notification title message) before;
          mkEmission (Speech (title ++ " " ++ message)) before;
          mkEmission (TimerCompleted (currentPhase (timer w))
                                     (currentPhase after)
                                     (completedPomodoros after)) after ])%list.
Proof.
  cbv zeta. rewrite complete_timer; cbv zeta.
  destruct (stop_frame now w) as (Hp & _ & _ & Ho).
  unfold complete, showCompletionNotification, emit; simpl.
  rewrite Ho, Hp, <- !app_assoc; simpl.
  destruct (String.eqb (currentPhase (timer w)) "work");
    [destruct (JS.rem_is_zero _ _) |]; reflexivity.
Qed.

Lemma complete_sends_one (now : Z) (w : World) :
  completionsSent (complete now w) = S (completionsSent w).
Proof.
  unfold completionsSent. rewrite complete_outbox; cbv zeta.
  rewrite filter_app, length_app; simpl. lia.
Qed.

Lemma onAlarm_paused (now now' : Z) (w : World) :
  isTimerRunning (timer w) = false ->
  sameClock w (onAlarm now now' w) /\ alarm (onAlarm now now' w) = false.
Proof.
  intros H. unfold onAlarm, getState; simpl. rewrite H; simpl.
  repeat split.
Qed.

(** C5. The alarm listener leaves timer, storage and outbox alone while the
    timer is paused (it only clears the alarm), and changes nothing at all
    while the timer runs with time left.  When the timer
    runs and [getState] reports no time left, the listener is one call of
    [complete]: exactly one more [timerCompleted] message, the timer paused,
    in a phase other than the one before, with the whole duration of that
    phase as remaining time; any later alarm then finds the timer paused and
    changes nothing. *)
Theorem onAlarm_completes_once (now now' : Z) (w : World) :
  (isTimerRunning (timer w) = false ->
   sameClock w (onAlarm now now' w) /\ alarm (onAlarm now now' w) = false)
  /\ (isTimerRunning (timer w) = true ->
      0 < Snapshot.timeRemaining (getState now (timer w)) ->
      onAlarm now now' w = w)
  /\ (isTimerRunning (timer w) = true ->
      Snapshot.timeRemaining (getState now (timer w)) <= 0 ->
      let w' := onAlarm now now' w in
      w' = complete now' w
      /\ completionsSent w' = S (completionsSent w)
      /\ isTimerRunning (timer w') = false
      /\ currentPhase (timer w') <> currentPhase (timer w)
      /\ timeRemainingInMilliseconds (timer w')
         = getPhaseTimeInMilliseconds (timer w') (currentPhase (timer w'))
      /\ forall later later' : Z,
           sameClock w' (onAlarm later later' w')
           /\ completionsSent (onAlarm later later' w')
              = completionsSent w').
Proof.
  split; [apply onAlarm_paused | split].
  - intros Hr Hpos. unfold onAlarm.
    replace (Snapshot.isRunning (getState now (timer w))) with true
      by (now rewrite <- Hr).
    destruct (Z.leb_spec (Snapshot.timeRemaining (getState now (timer w))) 0);
      [lia | reflexivity].
  - intros Hr Hle w'.
    assert (E : w' = complete now' w).
    { subst w'. unfold onAlarm.
      replace (Snapshot.isRunning (getState now (timer w))) with true
        by (now rewrite <- Hr).
      destruct (Z.leb_spec (Snapshot.timeRemaining (getState now (timer w))) 0);
        [reflexivity | lia]. }
    rewrite E. split; [reflexivity |].
    split; [apply complete_sends_one |].
    split; [apply complete_not_running |].
    split; [apply complete_changes_phase |].
    split; [apply complete_reseeds |].
    intros later later'.
    pose proof (proj1 (onAlarm_paused later later' _
                                      (complete_not_running now' w))) as Hs.
    split; [exact Hs |].
    unfold completionsSent. destruct Hs as (_ & _ & ->). reflexivity.
Qed.

Lemma onAlarm_completes_once_witness :
  currentPhase (timer (onAlarm 1500001 1500002 (start 1 freshWorld)))
  <> currentPhase (timer (start 1 freshWorld))
  /\ (sameClock freshWorld (onAlarm 3 4 freshWorld)
      /\ alarm (onAlarm 3 4 freshWorld) = false)
  /\ onAlarm 2 3 (start 1 freshWorld) = start 1 freshWorld.
Proof.
  pose proof (onAlarm_completes_once 1500001 1500002 (start 1 freshWorld))
    as (_ & _ & H).
  split.
  - refine (proj1 (proj2 (proj2 (proj2 (H eq_refl _))))).
    vm_compute. discriminate.
  - split.
    + apply (proj1 (onAlarm_completes_once 3 4 freshWorld)). reflexivity.
    + apply (proj1 (proj2 (onAlarm_completes_once 2 3 (start 1 freshWorld)))).
      * reflexivity.
      * vm_compute. reflexivity.
Defined.

(** *** C7: when the completion events leave *)

(** C7, as stated, fails.  A running first work phase is completed: the
    [timerCompleted] message leaves with the timer already in the short
    break and the count already 1. *)
Lemma tuple_sent_after_mutation :
  ~ tupleSentBeforeMutation 1500001 (start 1 freshWorld).
Proof.
  intros H.
  destruct (H (mkEmission (TimerCompleted "work" "break" 1)
                          (timer (complete 1500001 (start 1 freshWorld))))
              "work" "break" 1) as [Hp _].
  - vm_compute. right; right; left; reflexivity.
  - reflexivity.
  - vm_compute in Hp. discriminate.
Qed.

(** C7, amended.  [complete] emits three events, in this order.  The
    notification and then the speech leave first, with phase and count
    still the ones from before; they name the completed phase and the next
    one.  The [timerCompleted] message leaves last, with the next phase
    already current, the count already incremented (after a work phase) and
    that state already saved; it carries the completed phase, the new
    current phase and the new count. *)
Theorem complete_emission_order (now : Z) (w : World) :
  let w' := complete now w in
  exists notification speech message : Emission,
    emittedSince w w' = [notification; speech; message]
    /\ event notification
       = Notification
           (JS.interpolate (phaseNames (currentPhase (timer w)))
            ++ " complete!")
           ("time for your "
            ++ JS.interpolate (phaseNames (currentPhase (timer w'))))
    /\ (exists text, event speech = Speech text)
    /\ seen notification = timer (stop now w)
    /\ seen speech = timer (stop now w)
    /\ currentPhase (timer (stop now w)) = currentPhase (timer w)
    /\ completedPomodoros (timer (stop now w)) = completedPomodoros (timer w)
    /\ event message
       = TimerCompleted (currentPhase (timer w)) (currentPhase (timer w'))
                        (completedPomodoros (timer w'))
    /\ seen message = timer w'
    /\ currentPhase (seen message) <> currentPhase (timer w)
    /\ timerState (storage w')
       = timerState (storage (saveTimerState w')).
Proof.
  cbv zeta. unfold emittedSince.
  pose proof (complete_outbox now w) as Ho; cbv zeta in Ho. rewrite Ho.
  rewrite skipn_app, skipn_all, Nat.sub_diag; simpl.
  destruct (stop_frame now w) as (Hp & Hn & _ & _).
  do 3 eexists. split; [reflexivity |]. simpl.
  repeat split; auto.
  - eexists; reflexivity.
  - apply complete_changes_phase.
Qed.

(** *** C1: settings out of range *)

(** C1, as stated, fails.  [updateSettings] with a work time of 0 on a
    first run answers with success and the merged settings, and the timer
    afterwards holds a work time of 0 and no remaining time. *)
Lemma updateSettings_accepts_zero :
  let newSettings := mkPatch (Some 0) None None None in
  let w' := updateSettings newSettings freshWorld in
  onMessage (UpdateSettings newSettings) 1 2 freshWorld
  = (SuccessSettings (mkSettings 0 5 15 4), w')
  /\ timeRemainingInMilliseconds (timer freshWorld) = 25 * 60 * 1000
  /\ timeRemainingInMilliseconds (timer w') = 0
  /\ timer w' <> timer freshWorld.
Proof. cbv zeta. repeat split. vm_compute. discriminate. Qed.

(** C1, amended.  The range check is in the popup.  When one of the four
    values of the settings form is outside its range (work time 1 to 60,
    short break 1 to 30, long break 1 to 60, interval 2 to 10), the save
    handler shows the alert and sends nothing: timer, storage, alarm and
    outbox stay as they were; a work time of 0 is such a value.
    [updateSettings] itself has no failing answer: whatever it is given is
    merged and answered with success. *)
Theorem settings_checked_in_popup :
  (forall (workTime shortBreak longBreak longBreakInterval now now' : Z)
          (w : World),
      workTime < 1 \/ 60 < workTime
      \/ shortBreak < 1 \/ 30 < shortBreak
      \/ longBreak < 1 \/ 60 < longBreak
      \/ longBreakInterval < 2 \/ 10 < longBreakInterval ->
      Popup.saveButtonClick workTime shortBreak longBreak longBreakInterval
                            now now' w
      = (Popup.Alerted Popup.invalidValuesAlert, w))
  /\ (forall (shortBreak longBreak longBreakInterval now now' : Z)
             (w : World),
         Popup.saveButtonClick 0 shortBreak longBreak longBreakInterval
                               now now' w
         = (Popup.Alerted Popup.invalidValuesAlert, w))
  /\ (forall (newSettings : SettingsPatch) (now now' : Z) (w : World),
         onMessage (UpdateSettings newSettings) now now' w
         = (SuccessSettings (spread (settings (timer w)) newSettings),
            updateSettings newSettings w)).
Proof.
  assert (Hrange :
    forall a b c d : Z,
      a < 1 \/ 60 < a \/ b < 1 \/ 30 < b \/ c < 1 \/ 60 < c
      \/ d < 2 \/ 10 < d ->
      Popup.outOfRange a b c d = true).
  { intros a b c d H. unfold Popup.outOfRange.
    repeat rewrite orb_true_iff.
    rewrite !Z.ltb_lt, !Z.gtb_ltb, !Z.ltb_lt. tauto. }
  split; [| split].
  - intros a b c d now now' w H. unfold Popup.saveButtonClick.
    now rewrite (Hrange a b c d H).
  - intros b c d now now' w. unfold Popup.saveButtonClick.
    rewrite (Hrange 0 b c d) by lia. reflexivity.
  - intros p now now' w. unfold onMessage, updateSettings; simpl.
    destruct (isTimerRunning (timer w)); reflexivity.
Qed.

Lemma settings_checked_in_popup_witness :
  Popup.saveButtonClick 25 5 15 11 1 2 freshWorld
  = (Popup.Alerted Popup.invalidValuesAlert, freshWorld).
Proof.
  apply (proj1 settings_checked_in_popup 25 5 15 11 1 2 freshWorld). lia.
Defined.

(** *** C10: a paused timer stored with no time left *)

(** C10. When the stored state is not running and the remaining time after
    restoring is 0 (the stored value is 0, or the record has none and the
    timer in memory holds 0), [loadTimerState] sets the remaining time to
    the whole duration of the restored phase.  So a timer saved while paused
    with 0 ms left is loaded with the whole duration of its phase. *)
Theorem loadTimerState_reseeds :
  (forall (w : World) (r : Stored.t),
      timerState (storage w) = Some r ->
      Stored.isRunning r = false ->
      Stored.timeRemaining r = Some 0
      \/ (Stored.timeRemaining r = None
          /\ timeRemainingInMilliseconds (timer w) = 0) ->
      let t' := timer (loadTimerState w) in
      isTimerRunning t' = false
      /\ currentPhase t' = JS.str_or (Stored.currentPhase r) "work"
      /\ timeRemainingInMilliseconds t'
         = getPhaseTimeInMilliseconds (timer w) (currentPhase t'))
  /\ (forall (this : PomodoroTimer) (w : World),
         isTimerRunning (timer w) = false ->
         timeRemainingInMilliseconds (timer w) = 0 ->
         let t' := timer (loadTimerState (withTimer this (saveTimerState w))) in
         isTimerRunning t' = false
         /\ currentPhase t' = JS.str_or (currentPhase (timer w)) "work"
         /\ timeRemainingInMilliseconds t'
            = getPhaseTimeInMilliseconds this (currentPhase t')).
Proof.
  assert (Hgen :
    forall (w : World) (r : Stored.t),
      timerState (storage w) = Some r ->
      Stored.isRunning r = false ->
      Stored.timeRemaining r = Some 0
      \/ (Stored.timeRemaining r = None
          /\ timeRemainingInMilliseconds (timer w) = 0) ->
      let t' := timer (loadTimerState w) in
      isTimerRunning t' = false
      /\ currentPhase t' = JS.str_or (Stored.currentPhase r) "work"
      /\ timeRemainingInMilliseconds t'
         = getPhaseTimeInMilliseconds (timer w) (currentPhase t')).
  { intros w r Hr Hrun Hrem; cbv zeta.
    unfold loadTimerState. rewrite Hr, Hrun.
    destruct Hrem as [-> | [-> H0]]; simpl; [| rewrite H0]; simpl;
      repeat split. }
  split; [exact Hgen |].
  intros this w Hrun H0.
  apply (Hgen (withTimer this (saveTimerState w))
              (Stored.mk false (currentPhase (timer w))
                         (completedPomodoros (timer w))
                         (timerStartTime (timer w)) (Some 0))).
  - simpl. now rewrite Hrun, H0.
  - reflexivity.
  - now left.
Qed.

Lemma loadTimerState_reseeds_witness :
  let w := stop 1500001 (start 1 freshWorld) in
  let stored := Stored.mk false "break" 1 None (Some 0) in
  let w' := withStorage (mkStorage (Some stored) None) freshWorld in
  timeRemainingInMilliseconds (timer w) = 0
  /\ timeRemainingInMilliseconds
       (timer (loadTimerState (withTimer (timer w) (saveTimerState w))))
     = 25 * 60 * 1000
  /\ timeRemainingInMilliseconds (timer (loadTimerState w')) = 5 * 60 * 1000.
Proof.
  cbv zeta. split; [reflexivity | split].
  - pose (w := stop 1500001 (start 1 freshWorld)).
    destruct (proj2 loadTimerState_reseeds (timer w) w eq_refl eq_refl)
      as (_ & _ & H).
    exact H.
  - pose (stored := Stored.mk false "break" 1 None (Some 0)).
    pose (w' := withStorage (mkStorage (Some stored) None) freshWorld).
    destruct (proj1 loadTimerState_reseeds w' stored eq_refl eq_refl
                    (or_introl eq_refl)) as (_ & _ & H).
    exact H.
Defined.

(** *** C6: save, then load *)

(** C6, as stated, fails.  A first work phase is started and stopped after
    its 25 minutes: the timer is paused with 0 ms left.  Saved and loaded
    again, in place or by a new worker, it has 25 minutes left. *)
Lemma paused_at_zero_not_restored :
  let w := stop 1500001 (start 1 freshWorld) in
  timeRemainingInMilliseconds (timer w) = 0
  /\ timeRemainingInMilliseconds (timer (loadTimerState (saveTimerState w)))
     = 25 * 60 * 1000
  /\ timer (loadTimerState (saveTimerState w)) <> timer w
  /\ timer (coldStart (storage (saveTimerState w)) (alarm w)) <> timer w.
Proof. cbv zeta. repeat split; vm_compute; discriminate. Qed.

Lemma load_after_save (this : PomodoroTimer) (w : World) :
  isTimerRunning (timer w) = true
  \/ timeRemainingInMilliseconds (timer w) <> 0 ->
  timerStartTime (timer w) <> Some 0 ->
  currentPhase (timer w) <> "" ->
  timer (loadTimerState (withTimer this (saveTimerState w)))
  = setSettings (settings this) (timer w).
Proof.
  intros Hlive Hstart Hphase. destruct w as [[run ph rem n st s] sto al ob].
  simpl in *. apply String.eqb_neq in Hphase.
  unfold loadTimerState, saveTimerState, withTimer, withStorage; simpl.
  unfold JS.str_or, JS.num_or_zero, JS.or_null, JS.truthy.
  rewrite Hphase, orb_false_r.
  assert (Hn : (if n =? 0 then 0 else n) = n)
    by (destruct (Z.eqb_spec n 0); congruence).
  assert (Hst : (if match st with
                    | Some k => negb (k =? 0)
                    | None => false
                    end then st else None) = st).
  { destruct st as [z |]; [| reflexivity].
    destruct (Z.eqb_spec z 0); [subst; now elim Hstart | reflexivity]. }
  rewrite Hn, Hst. unfold setSettings; simpl.
  destruct run; simpl; [reflexivity |].
  destruct Hlive as [? | Hrem]; [discriminate |].
  destruct (Z.eqb_spec rem 0); [contradiction | reflexivity].
Qed.

(** C6, amended.  [saveTimerState] writes running flag, phase, remaining
    time, start time and completed count, and not the settings: two timers
    that differ in their settings only are saved alike.  Loading what was
    saved gives back those five fields whenever the timer runs or has time
    left, its start time is not the reading 0 and its phase name is not
    empty; the settings after the load are those of the timer loaded into.
    The settings are stored by [updateSettings] under their own key and
    come back through [loadSettings]. *)
Theorem save_load_roundtrip :
  (forall (this : PomodoroTimer) (w : World),
      isTimerRunning (timer w) = true
      \/ timeRemainingInMilliseconds (timer w) <> 0 ->
      timerStartTime (timer w) <> Some 0 ->
      currentPhase (timer w) <> "" ->
      let reloaded :=
        timer (loadTimerState (withTimer this (saveTimerState w))) in
      sameClockFields (timer w) reloaded
      /\ settings reloaded = settings this)
  /\ (forall (s : Settings) (w : World),
         timerState
           (storage (saveTimerState (withTimer (setSettings s (timer w)) w)))
         = timerState (storage (saveTimerState w)))
  /\ (forall (this : PomodoroTimer) (newSettings : SettingsPatch) (w : World),
         settings
           (timer (loadSettings
                     (withTimer this (updateSettings newSettings w))))
         = settings (timer (updateSettings newSettings w))).
Proof.
  split; [| split].
  - intros this w H1 H2 H3; cbv zeta.
    rewrite (load_after_save this w H1 H2 H3).
    unfold sameClockFields; simpl. repeat split.
  - reflexivity.
  - intros this p w. unfold loadSettings, updateSettings; simpl.
    destruct (isTimerRunning (timer w)); reflexivity.
Qed.

Lemma save_load_roundtrip_witness :
  sameClockFields
    (timer (start 1 freshWorld))
    (timer (loadTimerState
              (withTimer constructed (saveTimerState (start 1 freshWorld))))).
Proof.
  apply (proj1 save_load_roundtrip constructed (start 1 freshWorld)).
  - left; reflexivity.
  - discriminate.
  - discriminate.
Defined.

(** A new worker over the storage of an old one whose settings were stored:
    the timer is the old one. *)
Lemma coldStart_restores (w : World) :
  isTimerRunning (timer w) = true
  \/ timeRemainingInMilliseconds (timer w) <> 0 ->
  timerStartTime (timer w) <> Some 0 ->
  currentPhase (timer w) <> "" ->
  timerSettings (storage w) = Some (full (settings (timer w))) ->
  timer (coldStart (storage (saveTimerState w)) (alarm w)) = timer w.
Proof.
  intros H1 H2 H3 Hs. unfold coldStart.
  set (w0 := loadSettings _).
  assert (Hst : storage w0 = storage (saveTimerState w)).
  { subst w0. unfold loadSettings; simpl. now rewrite Hs. }
  assert (Hset : settings (timer w0) = settings (timer w)).
  { subst w0. unfold loadSettings; simpl. rewrite Hs. simpl.
    destruct (settings (timer w)); reflexivity. }
  assert (E : timer (loadTimerState w0)
              = timer (loadTimerState (withTimer (timer w0)
                                                 (saveTimerState w)))).
  { unfold loadTimerState. rewrite Hst. simpl. reflexivity. }
  rewrite E, load_after_save by assumption.
  rewrite Hset. destruct (timer w); reflexivity.
Qed.

(** *** C3: the remaining time stays within the phase *)

Lemma clockInv_later (lo hi : Z) (t : PomodoroTimer) :
  lo <= hi -> clockInv lo t -> clockInv hi t.
Proof.
  intros Hle [Hb Hs]. split; [exact Hb |].
  intros Hr. destruct (Hs Hr) as (s & E & Hle'). exists s. split; [auto | lia].
Qed.

Lemma start_clockInv (lo now : Z) (w : World) :
  lo <= now -> clockInv lo (timer w) -> clockInv now (timer (start now w)).
Proof.
  intros Hle Hinv. unfold start. case_running w.
  - now apply clockInv_later with lo.
  - destruct Hinv as [Hb _]. split; simpl.
    + exact Hb.
    + intros _. exists now. split; [reflexivity | lia].
Qed.

Lemma stop_clockInv (lo now : Z) (w : World) :
  lo <= now -> clockInv lo (timer w) -> clockInv now (timer (stop now w)).
Proof.
  intros Hle Hinv. case_running w.
  - destruct Hinv as [Hb Hs]. destruct (Hs Erun) as (s & E & Hs').
    rewrite stop_running by assumption. split; simpl.
    + rewrite E; simpl.
      change (getPhaseTimeInMilliseconds _ (currentPhase (timer w)))
        with (getPhaseTimeInMilliseconds (timer w) (currentPhase (timer w))).
      lia.
    + discriminate.
  - rewrite stop_paused by assumption. now apply clockInv_later with lo.
Qed.

Lemma run_clockInv (cs : list (Command * Z)) :
  forall (lo now : Z) (w : World),
    clockInv lo (timer w) ->
    nondecreasing (lo :: map snd cs ++ [now]) ->
    clockInv now (timer (run cs w)).
Proof.
  induction cs as [| [c t] cs IH]; intros lo now w Hinv Hmono.
  - simpl in *. apply clockInv_later with lo; [tauto | exact Hinv].
  - change (nondecreasing (lo :: t :: (map snd cs ++ [now])%list)) in Hmono.
    destruct Hmono as [Hle Hrest]. simpl.
    apply (IH t now); [| exact Hrest].
    destruct c; simpl; [now apply start_clockInv with lo
                       | now apply stop_clockInv with lo].
Qed.

Lemma run_frame (cs : list (Command * Z)) :
  forall w : World,
    settings (timer (run cs w)) = settings (timer w)
    /\ currentPhase (timer (run cs w)) = currentPhase (timer w).
Proof.
  induction cs as [| [c t] cs IH]; intros w; simpl; [auto |].
  destruct (IH (exec c t w)) as [-> ->].
  destruct c; simpl.
  - pose proof (start_keeps t w); tauto.
  - pose proof (stop_frame t w); tauto.
Qed.

Lemma getState_within (now : Z) (t : PomodoroTimer) :
  clockInv now t ->
  0 <= Snapshot.timeRemaining (getState now t)
    <= Snapshot.totalTime (getState now t).
Proof.
  intros [Hb Hs]. unfold getState; simpl.
  destruct (isTimerRunning t) eqn:Hr; simpl; [| exact Hb].
  destruct (Hs eq_refl) as (s & E & Hle). rewrite E; simpl.
  destruct (negb (s =? 0)); lia.
Qed.

Lemma configured_clockInv (s : Settings) (lo : Z) :
  0 <= workTime s -> 0 <= shortBreak s -> 0 <= longBreak s ->
  clockInv lo (timer (configured s)) /\ settings (timer (configured s)) = s.
Proof.
  intros Hw Hs Hl. destruct s as [a b c d]; simpl in *.
  split; [| reflexivity]. split; simpl.
  - unfold getPhaseTimeInMilliseconds; simpl. lia.
  - discriminate.
Qed.

(** C3. Let the durations be any non-negative numbers of minutes and let
    any sequence of [start] and [stop] calls be made at clock readings that
    never go back.  Then, at any reading not before the last call, the
    remaining time [getState] reports is at least 0 and at most the total
    time of the current phase, and so is the stored
    [timeRemainingInMilliseconds]. *)
Theorem remaining_within_phase
        (s : Settings) (cs : list (Command * Z)) (now : Z) :
  0 <= workTime s -> 0 <= shortBreak s -> 0 <= longBreak s ->
  nondecreasing (map snd cs ++ [now])%list ->
  let t := timer (run cs (configured s)) in
  let state := getState now t in
  settings t = s
  /\ Snapshot.totalTime state = getPhaseTimeInMilliseconds t (currentPhase t)
  /\ 0 <= Snapshot.timeRemaining state <= Snapshot.totalTime state
  /\ 0 <= timeRemainingInMilliseconds t
       <= getPhaseTimeInMilliseconds t (currentPhase t).
Proof.
  intros Hw Hs Hl Hmono; cbv zeta.
  set (lo := hd now (map snd cs)).
  destruct (configured_clockInv s lo Hw Hs Hl) as [Hinv Hset].
  assert (Hrun : clockInv now (timer (run cs (configured s)))).
  { apply (run_clockInv cs lo); [exact Hinv |].
    subst lo. destruct cs as [| [c t] cs]; simpl in *.
    - split; [lia | exact I].
    - split; [lia | exact Hmono]. }
  destruct (run_frame cs (configured s)) as [Hs' _].
  split; [now rewrite Hs' |].
  split; [reflexivity |].
  split; [now apply getState_within | apply Hrun].
Qed.

Lemma remaining_within_phase_witness :
  let t := timer (run [(DoStart, 1); (DoStop, 5); (DoStart, 7)]
                      (configured defaultSettings)) in
  0 <= Snapshot.timeRemaining (getState 10 t)
    <= Snapshot.totalTime (getState 10 t).
Proof.
  refine (proj1 (proj2 (proj2
    (remaining_within_phase defaultSettings
       [(DoStart, 1); (DoStop, 5); (DoStart, 7)] 10 _ _ _ _)))).
  - simpl; lia.
  - simpl; lia.
  - simpl; lia.
  - simpl; lia.
Defined.

(** ** Further properties of the timer *)

Import Session.

(** *** [reset] *)

Lemma saveTimerState_storage (w : World) :
  timerState (storage (saveTimerState w)) = Some (projection (timer w))
  /\ timerSettings (storage (saveTimerState w)) = timerSettings (storage w)
  /\ timer (saveTimerState w) = timer w
  /\ alarm (saveTimerState w) = alarm w
  /\ outbox (saveTimerState w) = outbox w.
Proof. repeat split. Qed.

Lemma reset_timer (now : Z) (w : World) :
  timer (reset now w) =
    {| isTimerRunning := false;
       currentPhase := "work";
       timeRemainingInMilliseconds := workTime (settings (timer w)) * 60 * 1000;
       completedPomodoros := 0;
       timerStartTime := timerStartTime (timer (stop now w));
       settings := settings (timer w) |}.
Proof.
  unfold reset. cbn [timer saveTimerState withStorage withTimer].
  unfold setCompleted, setRemaining, setPhase, getPhaseTimeInMilliseconds.
  cbn [isTimerRunning currentPhase timerStartTime settings].
  rewrite stop_not_running.
  destruct (stop_frame now w) as (_ & _ & -> & _). reflexivity.
Qed.

Lemma stop_startTime (now : Z) (w : World) :
  isSet (timerStartTime (timer w)) = isTimerRunning (timer w) ->
  timerStartTime (timer (stop now w)) = None.
Proof.
  intros H. unfold stop. case_running w; simpl; [reflexivity |].
  now destruct (timerStartTime (timer w)).
Qed.

Lemma reset_again (now : Z) (w : World) :
  isTimerRunning (timer w) = false ->
  currentPhase (timer w) = "work" ->
  timeRemainingInMilliseconds (timer w)
  = workTime (settings (timer w)) * 60 * 1000 ->
  completedPomodoros (timer w) = 0 ->
  timerState (storage w) = Some (projection (timer w)) ->
  reset now w = w.
Proof.
  destruct w as [[run ph rem n st s] [ts tset] al ob]; simpl.
  intros -> -> -> -> ->. reflexivity.
Qed.

(** X1. From any state in which the start time is set exactly while the
    timer runs, [reset] leads to the paused work phase with the whole work
    duration, a completed count of 0 and no start time; the settings stay,
    nothing is emitted, and what is stored is the timer as it now is.  A
    second [reset] changes nothing more. *)
Theorem reset_lands_on_work (now now' : Z) (w : World) :
  isSet (timerStartTime (timer w)) = isTimerRunning (timer w) ->
  timer (reset now w)
  = {| isTimerRunning := false;
       currentPhase := "work";
       timeRemainingInMilliseconds :=
         workTime (settings (timer w)) * 60 * 1000;
       completedPomodoros := 0;
       timerStartTime := None;
       settings := settings (timer w) |}
  /\ timerState (storage (reset now w))
     = Some (projection (timer (reset now w)))
  /\ outbox (reset now w) = outbox w
  /\ reset now' (reset now w) = reset now w.
Proof.
  intros Hset.
  assert (Ht : timer (reset now w)
               = mkTimer false "work"
                         (workTime (settings (timer w)) * 60 * 1000)
                         0 None (settings (timer w))).
  { rewrite reset_timer, stop_startTime by assumption. reflexivity. }
  split; [exact Ht |].
  split; [reflexivity |].
  split; [unfold reset; simpl; apply stop_frame |].
  apply reset_again; try (rewrite Ht; reflexivity). reflexivity.
Qed.

Lemma reset_lands_on_work_witness :
  currentPhase (timer (reset 20 (complete 9 (start 5 freshWorld)))) = "work"
  /\ reset 30 (reset 20 (start 5 freshWorld)) = reset 20 (start 5 freshWorld).
Proof.
  split.
  - rewrite (proj1 (reset_lands_on_work 20 20
                      (complete 9 (start 5 freshWorld)) eq_refl)).
    reflexivity.
  - apply (reset_lands_on_work 20 30 (start 5 freshWorld) eq_refl).
Defined.

(** *** [updateSettings] *)

(** X2. [updateSettings] merges the given keys over the current settings
    (a key not given keeps its value) and stores the merged settings; it
    never writes the stored timer state and never changes running flag,
    phase, start time or completed count.  While the timer runs, the
    remaining time [getState] reports at any reading is the same as before
    the call; while it is paused, the remaining time becomes the whole
    duration of the current phase under the merged settings. *)
Theorem updateSettings_effect (newSettings : SettingsPatch) (w : World) :
  let w' := updateSettings newSettings w in
  settings (timer w') = spread (settings (timer w)) newSettings
  /\ (workTime' newSettings = None ->
      workTime (settings (timer w')) = workTime (settings (timer w)))
  /\ (shortBreak' newSettings = None ->
      shortBreak (settings (timer w')) = shortBreak (settings (timer w)))
  /\ (longBreak' newSettings = None ->
      longBreak (settings (timer w')) = longBreak (settings (timer w)))
  /\ (longBreakInterval' newSettings = None ->
      longBreakInterval (settings (timer w'))
      = longBreakInterval (settings (timer w)))
  /\ timerSettings (storage w') = Some (full (settings (timer w')))
  /\ timerState (storage w') = timerState (storage w)
  /\ isTimerRunning (timer w') = isTimerRunning (timer w)
  /\ currentPhase (timer w') = currentPhase (timer w)
  /\ timerStartTime (timer w') = timerStartTime (timer w)
  /\ completedPomodoros (timer w') = completedPomodoros (timer w)
  /\ (isTimerRunning (timer w) = true ->
      forall now : Z,
        Snapshot.timeRemaining (getState now (timer w'))
        = Snapshot.timeRemaining (getState now (timer w)))
  /\ (isTimerRunning (timer w) = false ->
      forall now : Z,
        Snapshot.timeRemaining (getState now (timer w'))
        = Snapshot.totalTime (getState now (timer w'))).
Proof.
  destruct w as [[run ph rem n st s] sto al ob].
  destruct newSettings as [a b c d].
  cbv zeta. unfold updateSettings, getState; simpl.
  destruct run; simpl; repeat split; try discriminate;
    intros; subst; reflexivity.
Qed.

Lemma updateSettings_effect_witness :
  let w := start 5 freshWorld in
  let w' := updateSettings (mkPatch (Some 50) None None None) w in
  shortBreak (settings (timer w')) = 5
  /\ Snapshot.timeRemaining (getState 9 (timer w'))
     = Snapshot.timeRemaining (getState 9 (timer w))
  /\ Snapshot.timeRemaining
       (getState 9 (timer (updateSettings (mkPatch (Some 50) None None None)
                                          freshWorld)))
     = 50 * 60 * 1000.
Proof.
  cbv zeta.
  pose proof (updateSettings_effect (mkPatch (Some 50) None None None)
                                    (start 5 freshWorld)) as H.
  pose proof (updateSettings_effect (mkPatch (Some 50) None None None)
                                    freshWorld) as H'.
  cbv zeta in H, H'.
  destruct H as (_ & _ & Hs & _ & _ & _ & _ & _ & _ & _ & _ & Hr & _).
  destruct H' as (_ & _ & _ & _ & _ & _ & _ & _ & _ & _ & _ & _ & Hp).
  split; [rewrite (Hs eq_refl); reflexivity |].
  split; [apply (Hr eq_refl) |].
  rewrite (Hp eq_refl 9). reflexivity.
Defined.

(** X3. [updateSettings] changes the remaining time in memory only.  When a
    worker that was configured but never started is replaced by a new one,
    the new worker has the configured settings, but its remaining time is
    the 25 minutes of the default work time, whatever work time was
    configured. *)
Theorem settings_survive_restart_remaining_does_not
        (newSettings : SettingsPatch) :
  let w := updateSettings newSettings freshWorld in
  let w' := coldStart (storage w) (alarm w) in
  settings (timer w') = settings (timer w)
  /\ timeRemainingInMilliseconds (timer w)
     = workTime (settings (timer w)) * 60 * 1000
  /\ timeRemainingInMilliseconds (timer w') = 25 * 60 * 1000
  /\ Snapshot.totalTime (getState 0 (timer w'))
     = workTime (settings (timer w)) * 60 * 1000.
Proof.
  destruct newSettings as [[a |] [b |] [c |] [d |]]; repeat split.
Qed.

(** *** [getState] over time *)

(** X4. The remaining time [getState] reports never grows as the clock
    advances.  For a running timer started at a non-zero reading [s] it is
    [0] exactly from the reading [s] plus the frozen remaining time on. *)
Theorem getState_counts_down (t : PomodoroTimer) :
  (forall now now' : Z,
      now <= now' ->
      Snapshot.timeRemaining (getState now' t)
      <= Snapshot.timeRemaining (getState now t))
  /\ (forall now s : Z,
         isTimerRunning t = true -> timerStartTime t = Some s -> s <> 0 ->
         0 <= timeRemainingInMilliseconds t ->
         (Snapshot.timeRemaining (getState now t) = 0
          <-> s + timeRemainingInMilliseconds t <= now)).
Proof.
  split.
  - intros now now' Hle. unfold getState; cbn [Snapshot.timeRemaining].
    destruct (isTimerRunning t && JS.truthy (timerStartTime t)); lia.
  - intros now s Hr Hs Hz Hpos.
    rewrite (getState_running now s t Hr Hs Hz). lia.
Qed.

Lemma getState_counts_down_witness :
  Snapshot.timeRemaining (getState 8 (timer (start 5 freshWorld)))
  <= Snapshot.timeRemaining (getState 6 (timer (start 5 freshWorld)))
  /\ Snapshot.timeRemaining (getState 1500005 (timer (start 5 freshWorld)))
     = 0.
Proof.
  split.
  - apply (proj1 (getState_counts_down (timer (start 5 freshWorld)))). lia.
  - apply (proj2 (getState_counts_down (timer (start 5 freshWorld)))
             1500005 5); try reflexivity; vm_compute; discriminate.
Defined.

(** X5. Time spent paused is not counted.  A paused timer started again at
    any non-zero reading reports, [d] milliseconds later, its frozen
    remaining time less [d] and not below 0: the report does not depend on
    when it was started again. *)
Theorem pause_is_not_counted (resumed d : Z) (w : World) :
  isTimerRunning (timer w) = false -> resumed <> 0 ->
  Snapshot.timeRemaining (getState (resumed + d) (timer (start resumed w)))
  = Z.max 0 (timeRemainingInMilliseconds (timer w) - d).
Proof.
  intros Hp Hz.
  rewrite (getState_running (resumed + d) resumed).
  - destruct (start_keeps resumed w) as (-> & _). f_equal. lia.
  - unfold start. now rewrite Hp.
  - unfold start. now rewrite Hp.
  - exact Hz.
Qed.

Lemma pause_is_not_counted_witness :
  Snapshot.timeRemaining
    (getState (90 + 10) (timer (start 90 (stop 7 (start 5 freshWorld)))))
  = Z.max 0 (timeRemainingInMilliseconds (timer (stop 7 (start 5 freshWorld)))
             - 10).
Proof.
  apply (pause_is_not_counted 90 10 (stop 7 (start 5 freshWorld))).
  - reflexivity.
  - discriminate.
Defined.

(** *** What every reachable world satisfies *)

Lemma start_world (now : Z) (w : World) :
  isTimerRunning (timer w) = false ->
  start now w
  = mkWorld (setStartTime (Some now) (setRunning true (timer w)))
            (mkStorage
               (Some (projection
                        (setStartTime (Some now) (setRunning true (timer w)))))
               (timerSettings (storage w)))
            true (outbox w).
Proof. unfold start. now intros ->. Qed.

Lemma stop_world (now : Z) (w : World) :
  isTimerRunning (timer w) = true ->
  stop now w
  = mkWorld (timer (stop now w))
            (mkStorage (Some (projection (timer (stop now w))))
                       (timerSettings (storage w)))
            false (outbox w).
Proof. unfold stop. now intros ->. Qed.

Lemma complete_world (now : Z) (w : World) :
  storage (complete now w)
  = mkStorage (Some (projection (timer (complete now w))))
              (timerSettings (storage w))
  /\ alarm (complete now w) = alarm (stop now w)
  /\ timerStartTime (timer (complete now w))
     = timerStartTime (timer (stop now w))
  /\ settings (timer (complete now w)) = settings (timer w)
  /\ knownPhase (currentPhase (timer (complete now w)))
  /\ completedPomodoros (timer w)
     <= completedPomodoros (timer (complete now w)).
Proof.
  assert (Hsto : timerSettings (storage (stop now w))
                 = timerSettings (storage w))
    by (unfold stop; case_running w; reflexivity).
  destruct (stop_frame now w) as (Hp & Hn & Hs & _).
  rewrite complete_timer; cbv zeta.
  unfold complete, showCompletionNotification; simpl.
  rewrite Hsto, Hn, Hs.
  destruct (String.eqb (currentPhase (timer (stop now w))) "work");
    [destruct (JS.rem_is_zero _ _) |]; simpl;
    repeat split; unfold knownPhase; auto; lia.
Qed.

Lemma start_coherent (now : Z) (w : World) :
  coherent w -> coherent (start now w).
Proof.
  intros H. case_running w.
  - unfold start. now rewrite Erun.
  - rewrite start_world by assumption. destruct H as (_ & Hp & Hc).
    repeat split; assumption.
Qed.

Lemma stop_coherent (now : Z) (w : World) :
  coherent w -> coherent (stop now w).
Proof.
  intros H. case_running w.
  - destruct H as (_ & Hp & Hc).
    unfold coherent. rewrite stop_running by assumption.
    repeat split; assumption.
  - now rewrite stop_paused.
Qed.

Lemma reset_coherent (now : Z) (w : World) :
  coherent w -> coherent (reset now w).
Proof.
  intros H. pose proof (stop_coherent now w H) as (Hs & _ & _).
  pose proof (stop_not_running now w) as Hr.
  unfold coherent. rewrite reset_timer; simpl.
  rewrite Hr in Hs. destruct (timerStartTime (timer (stop now w)));
    [discriminate |].
  repeat split; unfold knownPhase; auto; lia.
Qed.

Lemma complete_coherent (now : Z) (w : World) :
  coherent w -> coherent (complete now w).
Proof.
  intros H. pose proof (stop_coherent now w H) as (Hs & _ & _).
  destruct H as (_ & _ & Hc).
  pose proof (stop_not_running now w) as Hr.
  destruct (complete_world now w) as (_ & _ & Et & _ & Hp & Hn).
  unfold coherent. rewrite complete_not_running, Et.
  rewrite Hr in Hs. repeat split; try assumption. lia.
Qed.

Lemma updateSettings_coherent (p : SettingsPatch) (w : World) :
  coherent w -> coherent (updateSettings p w).
Proof.
  destruct w as [[run ph rem n st s] sto al ob].
  unfold coherent, updateSettings; simpl.
  destruct run; simpl; auto.
Qed.

Lemma onAlarm_cases (now now' : Z) (w : World) :
  onAlarm now now' w = complete now' w
  \/ onAlarm now now' w = w
  \/ onAlarm now now' w = withAlarm false w
     /\ isTimerRunning (timer w) = false.
Proof.
  unfold onAlarm, getState; cbn [Snapshot.isRunning Snapshot.timeRemaining].
  case_running w; cbn [andb].
  - destruct (_ <=? 0); auto.
  - auto.
Qed.

Lemma handle_coherent (i : Input) (w : World) :
  coherent w -> coherent (handle i w).
Proof.
  intros H. destruct i as [[| | | | p | a] now now' | now now']; simpl.
  - now apply start_coherent.
  - now apply stop_coherent.
  - now apply reset_coherent.
  - exact H.
  - now apply updateSettings_coherent.
  - exact H.
  - destruct (onAlarm_cases now now' w) as [-> | [-> | [-> Hr]]].
    + now apply complete_coherent.
    + exact H.
    + exact H.
Qed.

Lemma handleAll_coherent (inputs : list Input) :
  forall w : World, coherent w -> coherent (handleAll inputs w).
Proof.
  induction inputs as [| i inputs IH]; intros w Hw; simpl; [exact Hw |].
  apply IH. now apply handle_coherent.
Qed.

Lemma freshWorld_coherent : coherent freshWorld.
Proof. unfold coherent, knownPhase; simpl. repeat split; auto; lia. Qed.

(** X6. Whatever messages and alarms reach a worker after its first run,
    in whatever order and at whatever clock readings, each handled to its
    end before the next: the start time is set exactly while the timer
    runs, the phase is one of work, break and longBreak, and the completed
    count is not negative. *)
Theorem reachable_coherent (inputs : list Input) :
  let w := handleAll inputs freshWorld in
  isSet (timerStartTime (timer w)) = isTimerRunning (timer w)
  /\ knownPhase (currentPhase (timer w))
  /\ 0 <= completedPomodoros (timer w).
Proof.
  cbv zeta. change (coherent (handleAll inputs freshWorld)).
  apply handleAll_coherent, freshWorld_coherent.
Qed.

(** *** Bounds under every input but a change of settings *)

Lemma getPhaseTime_nonneg (t : PomodoroTimer) (p : string) :
  nonNegative (settings t) -> 0 <= getPhaseTimeInMilliseconds t p.
Proof.
  intros (Hw & Hs & Hl). unfold getPhaseTimeInMilliseconds.
  destruct (String.eqb p "work"); [lia |].
  destruct (String.eqb p "break"); [lia |].
  destruct (String.eqb p "longBreak"); lia.
Qed.

Lemma reset_clockInv (now : Z) (w : World) :
  nonNegative (settings (timer w)) -> clockInv now (timer (reset now w)).
Proof.
  intros Hn. rewrite reset_timer. split; simpl; [| discriminate].
  unfold getPhaseTimeInMilliseconds; simpl. destruct Hn. lia.
Qed.

Lemma complete_clockInv (now : Z) (w : World) :
  nonNegative (settings (timer w)) -> clockInv now (timer (complete now w)).
Proof.
  intros Hn. split.
  - rewrite complete_reseeds. split; [| lia].
    apply getPhaseTime_nonneg.
    now destruct (complete_world now w) as (_ & _ & _ & -> & _).
  - rewrite complete_not_running. discriminate.
Qed.

Lemma handle_settings (i : Input) (w : World) :
  changesSettings i = false ->
  settings (timer (handle i w)) = settings (timer w)
  /\ timerSettings (storage (handle i w)) = timerSettings (storage w).
Proof.
  destruct i as [[| | | | p | a] now now' | now now'];
    cbn [handle onMessage snd changesSettings];
    try discriminate; intros _.
  - unfold start. case_running w; auto.
  - unfold stop. case_running w; auto.
  - rewrite reset_timer; simpl. unfold reset, stop. case_running w; auto.
  - auto.
  - auto.
  - destruct (onAlarm_cases now now' w) as [-> | [-> | [-> _]]]; auto.
    destruct (complete_world now' w) as (-> & _ & _ & -> & _). auto.
Qed.

Lemma handle_clockInv (i : Input) (lo a b : Z) (w : World) :
  changesSettings i = false -> readings i = [a; b] ->
  lo <= a -> a <= b ->
  nonNegative (settings (timer w)) ->
  clockInv lo (timer w) -> clockInv b (timer (handle i w)).
Proof.
  intros Hc Hr Hlo Hab Hn Hinv.
  destruct i as [[| | | | p | act] now now' | now now'];
    cbn [handle onMessage snd changesSettings readings] in *;
    try discriminate; injection Hr as -> ->.
  - apply clockInv_later with a; [lia | now apply start_clockInv with lo].
  - apply clockInv_later with a; [lia | now apply stop_clockInv with lo].
  - apply clockInv_later with a; [lia | now apply reset_clockInv].
  - apply clockInv_later with lo; [lia | assumption].
  - apply clockInv_later with lo; [lia | assumption].
  - destruct (onAlarm_cases a b w) as [-> | [-> | [-> _]]].
    + now apply complete_clockInv.
    + apply clockInv_later with lo; [lia | assumption].
    + apply clockInv_later with lo; [lia | assumption].
Qed.

Lemma handleAll_clockInv (inputs : list Input) :
  forall (lo now : Z) (w : World),
    forallb (fun i => negb (changesSettings i)) inputs = true ->
    nondecreasing (lo :: flat_map readings inputs ++ [now]) ->
    nonNegative (settings (timer w)) ->
    clockInv lo (timer w) ->
    clockInv now (timer (handleAll inputs w)).
Proof.
  induction inputs as [| i inputs IH]; intros lo now w Hc Hmono Hn Hinv.
  - simpl in *. apply clockInv_later with lo; [tauto | exact Hinv].
  - simpl in Hc. apply andb_prop in Hc as [Hi Hc].
    apply negb_true_iff in Hi.
    assert (Hr : exists a b, readings i = [a; b])
      by (destruct i; simpl; eauto).
    destruct Hr as (a & b & Hr).
    change (nondecreasing
              (lo :: (readings i ++ flat_map readings inputs) ++ [now]))
      in Hmono.
    rewrite Hr in Hmono.
    change (nondecreasing
              (lo :: a :: b :: (flat_map readings inputs ++ [now])%list))
      in Hmono.
    destruct Hmono as (Hlo & Hab & Hrest).
    simpl. apply (IH b now); try assumption.
    + now rewrite (proj1 (handle_settings i w Hi)).
    + now apply (handle_clockInv i lo a b).
Qed.

(** X7. Let the durations be any non-negative numbers of minutes, and let
    any messages but [updateSettings] and any alarms reach the worker, at
    clock readings that never go back.  Then, at any reading not before the
    last one, the remaining time [getState] reports is at least 0 and at
    most the total time of the current phase. *)
Theorem remaining_within_phase_under_inputs
        (s : Settings) (inputs : list Input) (now : Z) :
  nonNegative s ->
  forallb (fun i => negb (changesSettings i)) inputs = true ->
  nondecreasing (flat_map readings inputs ++ [now])%list ->
  let state := getState now (timer (handleAll inputs (configured s))) in
  0 <= Snapshot.timeRemaining state <= Snapshot.totalTime state.
Proof.
  intros Hn Hc Hmono; cbv zeta.
  set (lo := hd now (flat_map readings inputs)).
  destruct Hn as (Hw & Hs & Hl).
  destruct (configured_clockInv s lo Hw Hs Hl) as [Hinv Hset].
  apply getState_within.
  apply (handleAll_clockInv inputs lo); try assumption.
  - subst lo. destruct (flat_map readings inputs) as [| t ts]; simpl in *.
    + split; [lia | exact I].
    + split; [lia | exact Hmono].
  - rewrite Hset. repeat split; assumption.
Qed.

Lemma remaining_within_phase_under_inputs_witness :
  let inputs := [Message Start 1 2; Alarm 60001 60002; Message Reset 70000 70001] in
  let state := getState 80000
                 (timer (handleAll inputs (configured (mkSettings 1 1 1 2)))) in
  0 <= Snapshot.timeRemaining state <= Snapshot.totalTime state.
Proof.
  apply (remaining_within_phase_under_inputs (mkSettings 1 1 1 2)
           [Message Start 1 2; Alarm 60001 60002; Message Reset 70000 70001]
           80000).
  - unfold nonNegative; simpl; lia.
  - reflexivity.
  - simpl; lia.
Defined.

(** *** A new worker over the storage of an old one *)

Lemma complete_startTime (now : Z) (w : World) :
  timerStartTime (timer w) <> Some 0 ->
  timerStartTime (timer (complete now w)) <> Some 0.
Proof.
  intros H. destruct (complete_world now w) as (_ & _ & -> & _).
  unfold stop. case_running w; simpl; [discriminate | exact H].
Qed.

Lemma handle_persisted (i : Input) (w : World) :
  changesSettings i = false -> readsZero i = false ->
  persisted w -> persisted (handle i w).
Proof.
  intros Hc Hz (Hsync & Hset & Hst).
  destruct (handle_settings i w Hc) as [Es Ets].
  unfold persisted. rewrite Es, Ets. split; [| split; [exact Hset |]].
  - destruct i as [[| | | | p | act] now now' | now now'];
      cbn [handle onMessage snd changesSettings] in *; try discriminate.
    + case_running w.
      * unfold start; rewrite Erun; exact Hsync.
      * rewrite start_world by assumption. right; reflexivity.
    + case_running w.
      * rewrite stop_world by assumption. right; reflexivity.
      * rewrite stop_paused by assumption; exact Hsync.
    + right; reflexivity.
    + exact Hsync.
    + exact Hsync.
    + destruct (onAlarm_cases now now' w) as [-> | [-> | [-> _]]].
      * right. now destruct (complete_world now' w) as (-> & _).
      * exact Hsync.
      * exact Hsync.
  - destruct i as [[| | | | p | act] now now' | now now'];
      cbn [handle onMessage snd changesSettings] in *; try discriminate.
    + case_running w.
      * unfold start; rewrite Erun; exact Hst.
      * rewrite start_world by assumption; simpl.
        unfold readsZero in Hz; simpl in Hz.
        destruct (Z.eqb_spec now 0); [discriminate | congruence].
    + unfold stop. case_running w; simpl; [discriminate | exact Hst].
    + rewrite reset_timer; simpl.
      unfold stop. case_running w; simpl; [discriminate | exact Hst].
    + exact Hst.
    + exact Hst.
    + destruct (onAlarm_cases now now' w) as [-> | [-> | [-> _]]].
      * now apply complete_startTime.
      * exact Hst.
      * exact Hst.
Qed.

Lemma handleAll_persisted (inputs : list Input) :
  forall w : World,
    forallb (fun i => negb (changesSettings i)) inputs = true ->
    forallb (fun i => negb (readsZero i)) inputs = true ->
    persisted w -> persisted (handleAll inputs w).
Proof.
  induction inputs as [| i inputs IH]; intros w Hc Hz Hw; simpl;
    [exact Hw |].
  simpl in Hc, Hz.
  apply andb_prop in Hc as [Hi Hc]. apply andb_prop in Hz as [Hzi Hz].
  apply negb_true_iff in Hi, Hzi.
  apply IH; try assumption. now apply handle_persisted.
Qed.

(** X8. A worker is configured, then receives any messages but
    [updateSettings] and any alarms, none at the clock reading 0, and has
    saved its timer at least once.  If the timer is running or has time
    left, a new worker over the same storage has the very same timer:
    running flag, phase, remaining time, start time, completed count and
    settings. *)
Theorem restart_restores_timer (s : Settings) (inputs : list Input) :
  forallb (fun i => negb (changesSettings i)) inputs = true ->
  forallb (fun i => negb (readsZero i)) inputs = true ->
  let w := handleAll inputs (configured s) in
  timerState (storage w) <> None ->
  isTimerRunning (timer w) = true
  \/ timeRemainingInMilliseconds (timer w) <> 0 ->
  timer (coldStart (storage w) (alarm w)) = timer w.
Proof.
  intros Hc Hz w Hsaved Hlive.
  assert (Hp : persisted w).
  { apply handleAll_persisted; try assumption.
    destruct s as [a b c d]. unfold persisted; simpl.
    repeat split; auto. discriminate. }
  assert (Hco : coherent w).
  { apply handleAll_coherent. apply updateSettings_coherent.
    apply freshWorld_coherent. }
  destruct Hp as ([Hnone | Hsome] & Hset & Hst); [contradiction |].
  destruct Hco as (_ & Hphase & _).
  assert (Esto : storage w = storage (saveTimerState w)).
  { unfold saveTimerState, withStorage; cbn [storage].
    destruct (storage w) as [ts tset]; cbn [timerState timerSettings] in *.
    rewrite Hsome. reflexivity. }
  rewrite Esto. apply coldStart_restores; try assumption.
  destruct Hphase as [-> | [-> | ->]]; discriminate.
Qed.

Lemma restart_restores_timer_witness :
  let w := handleAll [Message Start 5 6; Message Stop 9 10]
                     (configured (mkSettings 50 10 20 3)) in
  timer (coldStart (storage w) (alarm w)) = timer w.
Proof.
  apply (restart_restores_timer (mkSettings 50 10 20 3)
           [Message Start 5 6; Message Stop 9 10]).
  - reflexivity.
  - reflexivity.
  - discriminate.
  - right. vm_compute. discriminate.
Defined.

(** ** The timer display of the popup: properties *)

Import StudyBuddyTimer.

Lemma ceilDiv_bounds (a : Z) :
  1000 * (ceilDiv a 1000 - 1) < a <= 1000 * ceilDiv a 1000.
Proof.
  unfold ceilDiv.
  pose proof (Z.div_mod (- a) 1000 ltac:(lia)).
  pose proof (Z.mod_pos_bound (- a) 1000 ltac:(lia)). lia.
Qed.

Lemma format_whole_seconds (milliseconds : Z) :
  formatTimeAsMinutesSeconds milliseconds
  = formatTimeAsMinutesSeconds (1000 * ceilDiv milliseconds 1000).
Proof.
  unfold formatTimeAsMinutesSeconds.
  replace (ceilDiv (1000 * ceilDiv milliseconds 1000) 1000)
    with (ceilDiv milliseconds 1000); [reflexivity |].
  unfold ceilDiv at 2.
  replace (- (1000 * ceilDiv milliseconds 1000))
    with ((- ceilDiv milliseconds 1000) * 1000) by lia.
  rewrite Z.div_mul by lia. lia.
Qed.

Lemma display_table :
  forallb (fun n =>
             match readDisplay
                     (formatTimeAsMinutesSeconds (1000 * Z.of_nat n)) with
             | Some seconds => seconds =? Z.of_nat n
             | None => false
             end)
          (seq 0 (60 * 100)) = true.
Proof. vm_compute. reflexivity. Qed.

(** X9. For a remaining time from 0 to 99 minutes 59 seconds, the popup
    shows two digits, a colon and two digits, and they read back as the
    remaining time rounded up to the whole second; so [00:00] is shown at 0
    ms only. *)
Theorem display_rounds_up (milliseconds : Z) :
  0 <= milliseconds <= 5999000 ->
  exists seconds : Z,
    readDisplay (formatTimeAsMinutesSeconds milliseconds) = Some seconds
    /\ 1000 * (seconds - 1) < milliseconds <= 1000 * seconds.
Proof.
  intros Hrange. exists (ceilDiv milliseconds 1000).
  pose proof (ceilDiv_bounds milliseconds) as Hb.
  split; [| exact Hb].
  rewrite format_whole_seconds.
  set (t := ceilDiv milliseconds 1000) in *.
  assert (Ht : 0 <= t < 6000) by lia.
  pose proof display_table as Htab.
  rewrite forallb_forall in Htab.
  specialize (Htab (Z.to_nat t)).
  rewrite Z2Nat.id in Htab by lia.
  assert (Hin : In (Z.to_nat t) (seq 0 (60 * 100))) by (apply in_seq; lia).
  specialize (Htab Hin).
  destruct (readDisplay (formatTimeAsMinutesSeconds (1000 * t)));
    [| discriminate].
  apply Z.eqb_eq in Htab. now subst.
Qed.

Lemma display_rounds_up_witness :
  exists seconds : Z,
    readDisplay (formatTimeAsMinutesSeconds 1499001) = Some seconds
    /\ 1000 * (seconds - 1) < 1499001 <= 1000 * seconds.
Proof. apply (display_rounds_up 1499001). lia. Defined.

(** X10. The alert of the popup and the notification of the worker name
    the phases alike.  When a phase with one of the three names is
    completed, the worker notifies [<completed> complete!] and
    [time for your <next>], and the popup, given the data of the
    [timerCompleted] message of the same completion, alerts with the same
    two names and the count the timer then holds. *)
Theorem alert_agrees_with_notification (now : Z) (w : World) :
  knownPhase (currentPhase (timer w)) ->
  exists (completedName nextName text completedPhase nextPhase : string)
         (count : Z) (before after : PomodoroTimer),
    emittedSince w (complete now w)
    = [ mkEmission (Notification (completedName ++ " complete!")
                                 ("time for your " ++ nextName)) before;
        mkEmission (Speech text) before;
        mkEmission (TimerCompleted completedPhase nextPhase count) after ]
    /\ count = completedPomodoros (timer (complete now w))
    /\ showCompletionNotification completedPhase nextPhase count
       = partyPopper ++ " " ++ completedName ++ " complete!"
         ++ JS.nl ++ JS.nl ++ "Time to start your " ++ nextName ++ "."
         ++ JS.nl ++ JS.nl ++ "Pomodoros completed: " ++ toString count.
Proof.
  intros Hknown.
  pose proof (complete_outbox now w) as Ho; cbv zeta in Ho.
  assert (Hnext :
    orSession (nextPhaseNames (currentPhase (timer (complete now w)))
                              (currentPhase (timer w)))
    = JS.interpolate
        (Background.phaseNames (currentPhase (timer (complete now w))))).
  { rewrite complete_timer; cbv zeta.
    destruct (stop_frame now w) as (-> & _).
    destruct Hknown as [-> | [-> | ->]]; simpl;
      [destruct (JS.rem_is_zero _ _) | |]; reflexivity. }
  assert (Hdone :
    orSession (phaseNames (currentPhase (timer w)))
    = JS.interpolate (Background.phaseNames (currentPhase (timer w)))).
  { destruct Hknown as [-> | [-> | ->]]; reflexivity. }
  remember (timer (complete now w)) as after eqn:Eafter.
  remember (timer (stop now w)) as before eqn:Ebefore.
  unfold emittedSince. rewrite Ho.
  rewrite skipn_app, skipn_all, Nat.sub_diag. cbn [skipn app].
  do 8 eexists. split; [reflexivity |]. split; [reflexivity |].
  unfold showCompletionNotification. rewrite Hnext, Hdone. reflexivity.
Qed.

Lemma alert_agrees_with_notification_witness :
  exists (completedName nextName text completedPhase nextPhase : string)
         (count : Z) (before after : PomodoroTimer),
    emittedSince (start 5 freshWorld) (complete 9 (start 5 freshWorld))
    = [ mkEmission (Notification (completedName ++ " complete!")
                                 ("time for your " ++ nextName)) before;
        mkEmission (Speech text) before;
        mkEmission (TimerCompleted completedPhase nextPhase count) after ]
    /\ count = completedPomodoros (timer (complete 9 (start 5 freshWorld)))
    /\ showCompletionNotification completedPhase nextPhase count
       = partyPopper ++ " " ++ completedName ++ " complete!"
         ++ JS.nl ++ JS.nl ++ "Time to start your " ++ nextName ++ "."
         ++ JS.nl ++ JS.nl ++ "Pomodoros completed: " ++ toString count.
Proof.
  apply (alert_agrees_with_notification 9 (start 5 freshWorld)).
  left; reflexivity.
Defined.

Lemma spread_full (s s' : Settings) : spread s (full s') = s'.
Proof. now destruct s'. Qed.

Lemma handle_getSettings (i : Input) (w : World) :
  getSettings (storage w) = settings (timer w) ->
  getSettings (storage (handle i w)) = settings (timer (handle i w)).
Proof.
  intros H. destruct (changesSettings i) eqn:Hc.
  - destruct i as [[| | | | p | a] now now' | now now']; try discriminate.
    cbn [handle onMessage snd].
    unfold getSettings, updateSettings; simpl.
    destruct (isTimerRunning (timer w)); simpl;
      now destruct (spread (settings (timer w)) p).
  - destruct (handle_settings i w Hc) as [Es Ets].
    unfold getSettings in *. now rewrite Es, Ets.
Qed.

(** X11. Whatever messages and alarms reach a worker after its first run,
    the settings the popup reads for its form (its defaults with the stored
    settings over them) are the settings the worker holds. *)
Theorem popup_reads_worker_settings (inputs : list Input) :
  getSettings (storage (handleAll inputs freshWorld))
  = settings (timer (handleAll inputs freshWorld)).
Proof.
  assert (H0 : getSettings (storage freshWorld) = settings (timer freshWorld))
    by reflexivity.
  revert H0. generalize freshWorld as w.
  induction inputs as [| i inputs IH]; intros w Hw; simpl; [exact Hw |].
  apply IH. now apply handle_getSettings.
Qed.

(** ** The website list: properties *)

Import Text Blocking Websites.

(** *** Strings *)

Lemma chars_app (a b : string) :
  list_ascii_of_string (a ++ b)
  = (list_ascii_of_string a ++ list_ascii_of_string b)%list.
Proof. induction a as [| c a IH]; simpl; [reflexivity | now rewrite IH]. Qed.

Lemma chars_toLowerCase (s : string) :
  list_ascii_of_string (toLowerCase s)
  = map lowerChar (list_ascii_of_string s).
Proof. induction s as [| c s IH]; simpl; [reflexivity | now rewrite IH]. Qed.

Lemma stripPrefix_app (p rest : string) : stripPrefix p (p ++ rest) = Some rest.
Proof.
  induction p as [| c p IH]; simpl; [reflexivity |].
  now rewrite Ascii.eqb_refl.
Qed.

Lemma stripPrefix_some (p s rest : string) :
  stripPrefix p s = Some rest -> s = p ++ rest.
Proof.
  revert s. induction p as [| c p IH]; intros s H; simpl in *.
  - now injection H as ->.
  - destruct s as [| d s]; [discriminate |].
    destruct (Ascii.eqb_spec c d) as [-> | _]; [| discriminate].
    now rewrite (IH s H).
Qed.

Lemma includes_inside (before needle after : string) :
  includes (before ++ needle ++ after) needle = true.
Proof.
  induction before as [| c before IH]; simpl.
  - assert (H : String.prefix needle (needle ++ after) = true).
    { induction needle as [| d needle IHn]; simpl.
      - now destruct after.
      - now rewrite Ascii.eqb_refl || (destruct (ascii_dec d d); auto). }
    destruct (needle ++ after); simpl in *; now rewrite H.
  - rewrite IH. apply orb_true_r.
Qed.

Lemma prefix_app (p s : string) :
  String.prefix p s = true -> exists rest, s = p ++ rest.
Proof.
  revert s. induction p as [| c p IH]; intros s H.
  - exists s. reflexivity.
  - destruct s as [| d s]; simpl in H; [discriminate |].
    destruct (ascii_dec c d) as [-> | _]; [| discriminate].
    destruct (IH s H) as (rest & ->). exists rest. reflexivity.
Qed.

Lemma includes_true (s needle : string) :
  includes s needle = true ->
  exists before after, s = before ++ needle ++ after.
Proof.
  induction s as [| c s IH]; cbn [includes]; intros H.
  - apply orb_true_iff in H as [H | H]; [| discriminate].
    destruct (prefix_app _ _ H) as (rest & E).
    exists EmptyString, rest. exact E.
  - apply orb_true_iff in H as [H | H].
    + destruct (prefix_app _ _ H) as (rest & E).
      exists EmptyString, rest. exact E.
    + destruct (IH H) as (before & after & ->).
      exists (String c before), after. reflexivity.
Qed.

(** The characters of a string are those of its parts and the
    separator. *)
Lemma split_chars (P : ascii -> Prop) (c : ascii) (s : string) :
  P c ->
  (forall part, In part (split c s) ->
                Forall P (list_ascii_of_string part)) ->
  Forall P (list_ascii_of_string s).
Proof.
  intros Hc. induction s as [| a s IH]; intros Hparts; simpl.
  - constructor.
  - simpl in Hparts. destruct (Ascii.eqb_spec a c) as [-> | Hac].
    + constructor; [exact Hc |]. apply IH. intros part Hin.
      apply Hparts. now right.
    + destruct (split c s) as [| part parts].
      * specialize (Hparts _ (or_introl eq_refl)). simpl in Hparts.
        inversion Hparts; subst. constructor; [assumption |].
        apply IH. intros part [].
      * pose proof (Hparts _ (or_introl eq_refl)) as H1. simpl in H1.
        inversion H1; subst. constructor; [assumption |].
        apply IH. intros q [<- | Hq]; [assumption |].
        apply Hparts. now right.
Qed.

Lemma validLabel_chars (label : string) :
  validLabel label = true ->
  Forall (fun c => isLabelChar c = true) (list_ascii_of_string label).
Proof.
  unfold validLabel.
  destruct (list_ascii_of_string label) as [| c [| d rest]]; intros H.
  - discriminate.
  - constructor; [| constructor]. unfold isLabelChar. now rewrite H.
  - repeat (apply andb_prop in H as [H ?]).
    constructor; [unfold isLabelChar; now rewrite H |].
    set (l := d :: rest) in *.
    rewrite (app_removelast_last c (l := l)) by (subst l; discriminate).
    apply Forall_app. split.
    + now apply Forall_forall, forallb_forall.
    + constructor; [| constructor]. unfold isLabelChar.
      match goal with E : isAlnum (last l c) = true |- _ => now rewrite E end.
Qed.

Lemma domainPattern_chars (s : string) :
  domainPattern s = true ->
  Forall (fun c => (isLabelChar c || Ascii.eqb c ".") = true)
         (list_ascii_of_string s).
Proof.
  intros H. unfold domainPattern in H. rewrite forallb_forall in H.
  apply split_chars with (c := "."%char).
  - reflexivity.
  - intros part Hin. specialize (H part Hin).
    apply validLabel_chars in H.
    eapply Forall_impl; [| exact H]. simpl. intros a ->. reflexivity.
Qed.

Lemma lowerChar_host (c : ascii) :
  (isLabelChar c || Ascii.eqb c ".") = true -> isHostChar (lowerChar c) = true.
Proof.
  destruct c as [[] [] [] [] [] [] [] []]; vm_compute;
    intros H; try discriminate H; reflexivity.
Qed.

Lemma cleanWebsiteInput_some (website site : string) :
  cleanWebsiteInput website = Some site ->
  exists cleaned,
    site = toLowerCase cleaned
    /\ cleaned <> EmptyString
    /\ domainPattern cleaned = true.
Proof.
  unfold cleanWebsiteInput.
  set (cleaned := first (split "?" _)).
  destruct ((String.length cleaned =? 0)%nat || includes cleaned " ") eqn:E1;
    [discriminate |].
  destruct (domainPattern cleaned) eqn:E2; simpl; [| discriminate].
  intros H. injection H as <-. exists cleaned.
  split; [reflexivity | split; [| exact E2]].
  apply orb_false_iff in E1 as [E1 _].
  intros E. rewrite E in E1. discriminate.
Qed.

Lemma cleaned_is_clean (website site : string) :
  cleanWebsiteInput website = Some site -> cleanSite site.
Proof.
  intros H. destruct (cleanWebsiteInput_some _ _ H) as (cleaned & -> & Hne & Hd).
  split.
  - destruct cleaned; [now elim Hne | discriminate].
  - rewrite chars_toLowerCase. apply forallb_forall. intros c Hin.
    apply in_map_iff in Hin as (a & <- & Ha).
    apply lowerChar_host.
    pose proof (domainPattern_chars _ Hd) as Hall.
    rewrite Forall_forall in Hall. now apply Hall.
Qed.

(** X12. Whatever the user types, what [cleanWebsiteInput] accepts is not
    empty and holds nothing but lower-case letters, digits, hyphens and
    dots: no space, slash, quote or angle bracket reaches the list. *)
Theorem cleanWebsiteInput_is_clean (website site : string) :
  cleanWebsiteInput website = Some site -> cleanSite site.
Proof. apply cleaned_is_clean. Qed.

Lemma cleanWebsiteInput_is_clean_witness :
  cleanSite "facebook.com".
Proof.
  apply (cleanWebsiteInput_is_clean "https://www.Facebook.com/groups?x=1").
  reflexivity.
Defined.

(** *** However the site is typed *)

Lemma append_empty (s : string) : s ++ EmptyString = s.
Proof. induction s as [| c s IH]; simpl; [reflexivity | now rewrite IH]. Qed.

Lemma domainPattern_lacks (d : string) (c : ascii) :
  domainPattern d = true ->
  (isLabelChar c || Ascii.eqb c ".") = false ->
  ~ In c (list_ascii_of_string d).
Proof.
  intros Hd Hc Hin.
  pose proof (domainPattern_chars d Hd) as Hall.
  rewrite Forall_forall in Hall. specialize (Hall c Hin). congruence.
Qed.

Lemma stripPrefix_never (p1 : string) (x : ascii) (p2 : string) :
  forall d tail : string,
    ~ In x (list_ascii_of_string d) ->
    tail = EmptyString
    \/ (exists y rest, tail = String y rest
                       /\ y <> x /\ ~ In y (list_ascii_of_string p1)) ->
    stripPrefix (p1 ++ String x p2) (d ++ tail) = None.
Proof.
  induction p1 as [| c p1 IH]; intros d tail Hx Htail.
  - destruct d as [| a d]; simpl in *.
    + destruct Htail as [-> | (y & rest & -> & Hy & _)]; [reflexivity |].
      destruct (Ascii.eqb_spec x y); [congruence | reflexivity].
    + destruct (Ascii.eqb_spec x a); [subst; tauto | reflexivity].
  - destruct d as [| a d]; simpl in *.
    + destruct Htail as [-> | (y & rest & -> & _ & Hy)]; [reflexivity |].
      destruct (Ascii.eqb_spec c y); [subst; tauto | reflexivity].
    + destruct (Ascii.eqb_spec c a); [| reflexivity].
      apply IH; [tauto |].
      destruct Htail as [-> | (y & rest & -> & Hy & Hn)]; [now left |].
      right. exists y, rest. tauto.
Qed.

Lemma stripPrefix_still_none (p : string) :
  forall d tail : string,
    stripPrefix p d = None ->
    tail = EmptyString
    \/ (exists y rest, tail = String y rest
                       /\ ~ In y (list_ascii_of_string p)) ->
    stripPrefix p (d ++ tail) = None.
Proof.
  induction p as [| c p IH]; intros d tail Hd Htail; simpl in *.
  - discriminate.
  - destruct d as [| a d]; simpl.
    + destruct Htail as [-> | (y & rest & -> & Hy)]; [reflexivity |].
      destruct (Ascii.eqb_spec c y); [subst; tauto | reflexivity].
    + destruct (Ascii.eqb_spec c a); [| reflexivity].
      apply IH; [assumption |].
      destruct Htail as [-> | (y & rest & -> & Hy)]; [now left |].
      right. exists y, rest. tauto.
Qed.

Lemma dropTrailingSlash_keeps (s : string) :
  ~ In "/"%char (list_ascii_of_string s) -> dropTrailingSlash s = s.
Proof.
  induction s as [| c s IH]; intros H; simpl in *; [reflexivity |].
  destruct s as [| d s].
  - destruct (Ascii.eqb_spec c "/"); [subst; tauto | reflexivity].
  - now rewrite IH by tauto.
Qed.

Lemma dropTrailingSlash_app (d tail : string) :
  tail <> EmptyString ->
  dropTrailingSlash (d ++ tail) = d ++ dropTrailingSlash tail.
Proof.
  intros Ht. induction d as [| c d IH]; [reflexivity |].
  change (String c d ++ tail) with (String c (d ++ tail)).
  cbn [dropTrailingSlash]. rewrite IH.
  destruct (d ++ tail) eqn:E; [| reflexivity].
  destruct d; simpl in E; [contradiction | discriminate].
Qed.

Lemma first_split_app (c : ascii) (a b : string) :
  ~ In c (list_ascii_of_string a) ->
  first (split c (a ++ b)) = a ++ first (split c b).
Proof.
  induction a as [| x a IH]; intros H; simpl in *; [reflexivity |].
  destruct (Ascii.eqb_spec x c); [subst; tauto |].
  rewrite <- IH by tauto.
  destruct (split c (a ++ b)); reflexivity.
Qed.

Lemma after_host_is_cut (tail : string) :
  tail = EmptyString
  \/ (exists y rest, tail = String y rest
                     /\ (y = "/"%char \/ y = "?"%char)) ->
  first (split "?" (first (split "/" (dropTrailingSlash tail))))
  = EmptyString.
Proof.
  intros [-> | (y & rest & -> & [-> | ->])]; [reflexivity | |].
  - destruct rest; reflexivity.
  - destruct rest as [| c rest]; [reflexivity |].
    cbn [dropTrailingSlash]. cbn [split Ascii.eqb Bool.eqb].
    destruct (split "/" _); reflexivity.
Qed.

Lemma includes_space (d : string) :
  ~ In " "%char (list_ascii_of_string d) -> includes d " " = false.
Proof.
  intros H. destruct (includes d " ") eqn:E; [| reflexivity].
  destruct (includes_true _ _ E) as (before & after & ->).
  elim H. rewrite chars_app. apply in_or_app. right. now left.
Qed.

Lemma cleaning_after_prefixes (d tail : string) :
  domainPattern d = true ->
  tail = EmptyString
  \/ (exists y rest, tail = String y rest
                     /\ (y = "/"%char \/ y = "?"%char)) ->
  (let cleaned := dropTrailingSlash (d ++ tail) in
   let cleaned := first (split "/" cleaned) in
   let cleaned := first (split "?" cleaned) in
   if (String.length cleaned =? 0)%nat || includes cleaned " " then None
   else if negb (domainPattern cleaned) then None
   else Some (toLowerCase cleaned))
  = Some (toLowerCase d).
Proof.
  intros Hd Htail; cbv zeta.
  assert (Hslash : ~ In "/"%char (list_ascii_of_string d))
    by (now apply domainPattern_lacks).
  assert (Hquery : ~ In "?"%char (list_ascii_of_string d))
    by (now apply domainPattern_lacks).
  assert (Hspace : ~ In " "%char (list_ascii_of_string d))
    by (now apply domainPattern_lacks).
  assert (Hcut : first (split "?" (first (split "/"
                   (dropTrailingSlash (d ++ tail))))) = d).
  { assert (E : dropTrailingSlash (d ++ tail) = d ++ dropTrailingSlash tail).
    { destruct Htail as [-> | (y & rest & -> & _)].
      - cbn [dropTrailingSlash]. rewrite !append_empty.
        now apply dropTrailingSlash_keeps.
      - apply dropTrailingSlash_app. discriminate. }
    rewrite E.
    rewrite (first_split_app "/" d) by assumption.
    rewrite (first_split_app "?" d) by assumption.
    rewrite after_host_is_cut by assumption. apply append_empty. }
  rewrite Hcut, Hd, includes_space by assumption.
  destruct d; [discriminate Hd | reflexivity].
Qed.

(** X13. The same entry results however the site is typed.  Let [d] match
    the domain pattern and not start with [www.]; put [http://], [https://]
    or nothing before it, then [www.] or nothing, and after it nothing, or
    a slash or a question mark followed by anything.  [cleanWebsiteInput]
    returns [d] in lower case. *)
Theorem cleanWebsiteInput_normalises (protocol www d tail : string) :
  domainPattern d = true ->
  stripPrefix "www." d = None ->
  In protocol [EmptyString; "http://"; "https://"] ->
  In www [EmptyString; "www."] ->
  tail = EmptyString
  \/ (exists y rest, tail = String y rest
                     /\ (y = "/"%char \/ y = "?"%char)) ->
  cleanWebsiteInput (protocol ++ www ++ d ++ tail) = Some (toLowerCase d).
Proof.
  intros Hd Hwww Hp Hw Htail.
  assert (Hcolon : ~ In ":"%char (list_ascii_of_string d))
    by (now apply domainPattern_lacks).
  assert (Htail1 : forall p1 : string,
            In p1 ["http"; "https"] ->
            tail = EmptyString
            \/ (exists y rest, tail = String y rest /\ y <> ":"%char
                               /\ ~ In y (list_ascii_of_string p1))).
  { intros p1 Hp1.
    destruct Htail as [-> | (y & rest & -> & Hy)]; [now left |].
    right. exists y, rest. split; [reflexivity |].
    destruct Hp1 as [<- | [<- | []]]; destruct Hy as [-> | ->];
      simpl; split; try discriminate; intuition discriminate. }
  assert (Htail2 : tail = EmptyString
                   \/ (exists y rest, tail = String y rest
                         /\ ~ In y (list_ascii_of_string "www."))).
  { destruct Htail as [-> | (y & rest & -> & Hy)]; [now left |].
    right. exists y, rest. split; [reflexivity |].
    destruct Hy as [-> | ->]; simpl; intuition discriminate. }
  assert (Hstrip :
    dropPrefix "www." (dropProtocol (protocol ++ www ++ d ++ tail))
    = d ++ tail).
  { assert (Hbare : dropPrefix "www." (www ++ d ++ tail) = d ++ tail).
    { unfold dropPrefix.
      destruct Hw as [<- | [<- | []]].
      - change (EmptyString ++ d ++ tail) with (d ++ tail).
        now rewrite stripPrefix_still_none.
      - now rewrite stripPrefix_app. }
    assert (Hnone : dropProtocol (www ++ d ++ tail) = www ++ d ++ tail).
    { destruct Hw as [<- | [<- | []]]; [| reflexivity].
      change (EmptyString ++ d ++ tail) with (d ++ tail).
      unfold dropProtocol, dropPrefix.
      rewrite (stripPrefix_never "https" ":" "//") by (auto; apply Htail1; simpl; auto).
      now rewrite (stripPrefix_never "http" ":" "//")
        by (auto; apply Htail1; simpl; auto). }
    destruct Hp as [<- | [<- | [<- | []]]].
    - change (EmptyString ++ www ++ d ++ tail) with (www ++ d ++ tail).
      now rewrite Hnone.
    - change (dropProtocol ("http://" ++ www ++ d ++ tail))
        with (www ++ d ++ tail). exact Hbare.
    - change (dropProtocol ("https://" ++ www ++ d ++ tail))
        with (www ++ d ++ tail). exact Hbare. }
  unfold cleanWebsiteInput. rewrite Hstrip.
  now apply cleaning_after_prefixes.
Qed.

Lemma cleanWebsiteInput_normalises_witness :
  cleanWebsiteInput ("https://" ++ "www." ++ "Reddit.com" ++ "/r/all?x=1/")
  = Some "reddit.com".
Proof.
  apply (cleanWebsiteInput_normalises "https://" "www." "Reddit.com"
                                      "/r/all?x=1/").
  - reflexivity.
  - reflexivity.
  - simpl; auto.
  - simpl; auto.
  - right. exists "/"%char, "r/all?x=1/". auto.
Defined.

(** *** The list under the actions of user and worker *)

Lemma existsb_eqb (site : string) (l : list string) :
  existsb (String.eqb site) l = true <-> In site l.
Proof.
  rewrite existsb_exists. split.
  - intros (x & Hin & E). apply String.eqb_eq in E. now subst.
  - intros H. exists site. split; [assumption | apply String.eqb_refl].
Qed.

Lemma addWebsite_stored (website : string) (g : Gate) :
  orEmpty (storedWebsites (snd (addWebsite website g)))
  = match cleanWebsiteInput website with
    | Some site =>
        if existsb (String.eqb site) (orEmpty (storedWebsites g))
        then orEmpty (storedWebsites g)
        else (orEmpty (storedWebsites g) ++ [site])%list
    | None => orEmpty (storedWebsites g)
    end.
Proof.
  unfold addWebsite. destruct (cleanWebsiteInput website); [| reflexivity].
  destruct (existsb _ _); reflexivity.
Qed.

Lemma act_hygiene (a : Action) (g : Gate) :
  NoDup (orEmpty (storedWebsites g)) ->
  (forall site, In site (orEmpty (storedWebsites g)) -> cleanSite site) ->
  NoDup (orEmpty (storedWebsites (act a g)))
  /\ (forall site, In site (orEmpty (storedWebsites (act a g))) ->
                   cleanSite site).
Proof.
  intros Hnd Hclean. destruct a as [| website | website |]; cbn [act].
  - unfold Blocking.loadBlockedWebsites.
    destruct (storedWebsites g) as [[| site sites] |] eqn:E; simpl.
    + split.
      * repeat constructor; simpl; intuition discriminate.
      * intros site [<- | [<- | []]]; split; (discriminate || reflexivity).
    + simpl in *. auto.
    + split.
      * repeat constructor; simpl; intuition discriminate.
      * intros site [<- | [<- | []]]; split; (discriminate || reflexivity).
  - rewrite addWebsite_stored.
    destruct (cleanWebsiteInput website) as [site |] eqn:E; [| auto].
    destruct (existsb _ _) eqn:Ex; [auto |].
    assert (Hnew : ~ In site (orEmpty (storedWebsites g))).
    { intros Hin. apply existsb_eqb in Hin. congruence. }
    split.
    + apply NoDup_app; [assumption | repeat constructor; auto |].
      intros x Hx [<- | []]. contradiction.
    + intros x Hx. apply in_app_or in Hx as [Hx | [<- | []]]; [auto |].
      now apply cleaned_is_clean with website.
  - simpl. split.
    + now apply NoDup_filter.
    + intros site Hin. apply filter_In in Hin as [Hin _]. auto.
  - simpl. split; [constructor | intros site []].
Qed.

(** X14. If the stored list has no site twice and holds clean sites only
    (as an empty storage does), it stays so whatever the user adds, removes
    or clears and whenever the worker starts. *)
Theorem stored_list_stays_clean (actions : list Action) (g : Gate) :
  NoDup (orEmpty (storedWebsites g)) ->
  (forall site, In site (orEmpty (storedWebsites g)) -> cleanSite site) ->
  NoDup (orEmpty (storedWebsites (actAll actions g)))
  /\ (forall site, In site (orEmpty (storedWebsites (actAll actions g))) ->
                   cleanSite site).
Proof.
  revert g. induction actions as [| a actions IH]; intros g Hnd Hclean.
  - auto.
  - simpl. destruct (act_hygiene a g Hnd Hclean) as [Hnd' Hclean'].
    now apply IH.
Qed.

Lemma stored_list_stays_clean_witness :
  let g := mkGate initialBlockedWebsites None None [] in
  NoDup (orEmpty (storedWebsites
                    (actAll [WorkerStart; Add "http://Example.org/";
                             Add "example.org"; Remove "youtube.com"] g))).
Proof.
  apply (stored_list_stays_clean
           [WorkerStart; Add "http://Example.org/"; Add "example.org";
            Remove "youtube.com"]
           (mkGate initialBlockedWebsites None None [])).
  - constructor.
  - intros site [].
Defined.

Lemma act_in_step (a : Action) (g : Gate) :
  blockedWebsites g = orEmpty (storedWebsites g) ->
  blockedWebsites (act a g) = orEmpty (storedWebsites (act a g)).
Proof.
  intros H. destruct a as [| website | website |]; cbn [act].
  - unfold Blocking.loadBlockedWebsites.
    now destruct (storedWebsites g) as [[| site sites] |] eqn:E.
  - unfold addWebsite. destruct (cleanWebsiteInput website); [| exact H].
    destruct (existsb _ _); [exact H | reflexivity].
  - reflexivity.
  - reflexivity.
Qed.

(** X15. Once the worker has started, the list it blocks by is the stored
    list, whatever the user then adds, removes or clears and however often
    the worker starts again. *)
Theorem worker_list_is_stored_list (actions : list Action) (g : Gate) :
  let g' := actAll (WorkerStart :: actions) g in
  blockedWebsites g' = orEmpty (storedWebsites g').
Proof.
  cbv zeta. simpl.
  assert (H0 : blockedWebsites (Blocking.loadBlockedWebsites g)
               = orEmpty (storedWebsites (Blocking.loadBlockedWebsites g))).
  { unfold Blocking.loadBlockedWebsites.
    now destruct (storedWebsites g) as [[| site sites] |] eqn:E. }
  revert H0. generalize (Blocking.loadBlockedWebsites g) as h.
  induction actions as [| a actions IH]; intros h Hh; simpl; [exact Hh |].
  apply IH. now apply act_in_step.
Qed.

(** X16. [removeWebsite] takes every occurrence of the given site out of
    the stored list and leaves every other site in; removing a site that
    was just added where it was not yet blocked gives back the stored list
    from before. *)
Theorem removeWebsite_removes (website : string) (g : Gate) :
  (~ In website (orEmpty (storedWebsites (removeWebsite website g))))
  /\ (forall site,
         site <> website ->
         (In site (orEmpty (storedWebsites (removeWebsite website g)))
          <-> In site (orEmpty (storedWebsites g))))
  /\ (forall typed site,
         cleanWebsiteInput typed = Some site ->
         ~ In site (orEmpty (storedWebsites g)) ->
         storedWebsites (removeWebsite site (snd (addWebsite typed g)))
         = Some (orEmpty (storedWebsites g))).
Proof.
  split; [| split].
  - simpl. intros Hin. apply filter_In in Hin as [_ Hneq].
    now rewrite String.eqb_refl in Hneq.
  - intros site Hneq. simpl. rewrite filter_In.
    apply String.eqb_neq in Hneq. rewrite Hneq. simpl. tauto.
  - intros typed site Hclean Hnew.
    unfold removeWebsite. cbn [storedWebsites store displayWebsites
                                 updateBlockedWebsites].
    rewrite addWebsite_stored, Hclean.
    destruct (existsb _ _) eqn:Ex; [apply existsb_eqb in Ex; contradiction |].
    rewrite filter_app; simpl. rewrite String.eqb_refl; simpl.
    rewrite app_nil_r. f_equal.
    apply forallb_filter_id. apply forallb_forall. intros x Hx.
    apply negb_true_iff, String.eqb_neq. intros ->. contradiction.
Qed.

Lemma removeWebsite_removes_witness :
  let g := mkGate defaultBlockedWebsites (Some defaultBlockedWebsites) None [] in
  In "instagram.com" (orEmpty (storedWebsites (removeWebsite "youtube.com" g)))
  /\ storedWebsites (removeWebsite "reddit.com"
                       (snd (addWebsite "www.reddit.com" g)))
     = Some defaultBlockedWebsites.
Proof.
  cbv zeta.
  pose (g := mkGate defaultBlockedWebsites (Some defaultBlockedWebsites)
                    None []).
  destruct (removeWebsite_removes "youtube.com" g) as (_ & Hkeep & _).
  destruct (removeWebsite_removes "reddit.com" g) as (_ & _ & Hback).
  split.
  - apply Hkeep; [discriminate | simpl; auto].
  - apply (Hback "www.reddit.com" "reddit.com"); [reflexivity |].
    simpl. intuition discriminate.
Defined.

(** X17. A site is not added twice, however it is typed: when two inputs
    clean to the same site, adding the second after the first changes
    nothing. *)
Theorem addWebsite_once (typed typed' : string) (g : Gate) :
  cleanWebsiteInput typed' = cleanWebsiteInput typed ->
  snd (addWebsite typed' (snd (addWebsite typed g)))
  = snd (addWebsite typed g).
Proof.
  intros E. unfold addWebsite at 1. rewrite E.
  destruct (cleanWebsiteInput typed) as [site |] eqn:Ec; [| reflexivity].
  assert (Hin : In site (orEmpty (storedWebsites (snd (addWebsite typed g))))).
  { rewrite addWebsite_stored, Ec.
    destruct (existsb _ _) eqn:Ex; [now apply existsb_eqb |].
    apply in_or_app. right. now left. }
  apply existsb_eqb in Hin. now rewrite Hin.
Qed.

Lemma addWebsite_once_witness :
  let g := mkGate defaultBlockedWebsites (Some defaultBlockedWebsites) None [] in
  snd (addWebsite "https://www.reddit.com/" (snd (addWebsite "Reddit.com" g)))
  = snd (addWebsite "Reddit.com" g).
Proof.
  apply (addWebsite_once "Reddit.com" "https://www.reddit.com/"
           (mkGate defaultBlockedWebsites (Some defaultBlockedWebsites)
                   None [])).
  reflexivity.
Defined.

(** X18. After [loadBlockedWebsites] the worker always has a list that is
    not empty and is the stored one.  So a cleared list does not outlast
    the worker: when the worker starts over a cleared list, it blocks
    instagram.com and youtube.com again and stores them. *)
Theorem loadBlockedWebsites_never_empty (g : Gate) :
  let g' := Blocking.loadBlockedWebsites g in
  blockedWebsites g' <> []
  /\ storedWebsites g' = Some (blockedWebsites g')
  /\ (forall sites, storedWebsites g = Some sites -> sites <> [] ->
                    blockedWebsites g' = sites)
  /\ blockedWebsites (Blocking.loadBlockedWebsites (clearAllWebsites g))
     = ["instagram.com"; "youtube.com"]
  /\ storedWebsites (Blocking.loadBlockedWebsites (clearAllWebsites g))
     = Some ["instagram.com"; "youtube.com"].
Proof.
  cbv zeta. unfold Blocking.loadBlockedWebsites.
  destruct (storedWebsites g) as [[| site sites] |] eqn:E; simpl;
    repeat split; try discriminate; try assumption.
  - intros sites0 H. injection H as <-. intros H. now elim H.
  - intros sites0 H. now injection H as <-.
Qed.

Lemma loadBlockedWebsites_never_empty_witness :
  blockedWebsites
    (Blocking.loadBlockedWebsites
       (mkGate initialBlockedWebsites (Some ["reddit.com"]) None []))
  = ["reddit.com"].
Proof.
  apply (proj1 (proj2 (proj2
          (loadBlockedWebsites_never_empty
             (mkGate initialBlockedWebsites (Some ["reddit.com"]) None []))))
          ["reddit.com"]).
  - reflexivity.
  - discriminate.
Defined.

(** *** Which tabs are sent away *)

Section Redirects.

Variable hostname : string -> option string.

(** X19. [shouldRedirectUrl] answers yes exactly when the URL has a host
    name and some site of the worker's list occurs somewhere inside that
    host name in lower case: at its end, as for a subdomain, or anywhere
    else.  With an empty list or a URL that does not parse the answer is
    no. *)
Theorem shouldRedirectUrl_is_substring_match (url : string) (g : Gate) :
  shouldRedirectUrl hostname url g = true
  <-> exists host site before after,
        hostname url = Some host
        /\ In site (blockedWebsites g)
        /\ toLowerCase host = before ++ site ++ after.
Proof.
  unfold shouldRedirectUrl. split.
  - destruct (hostname url) as [host |]; [| discriminate].
    intros H. apply existsb_exists in H as (site & Hin & Hinc).
    destruct (includes_true _ _ Hinc) as (before & after & E).
    exists host, site, before, after. auto.
  - intros (host & site & before & after & -> & Hin & E).
    apply existsb_exists. exists site. split; [assumption |].
    rewrite E. apply includes_inside.
Qed.

(** X20. The tab listener sends a tab away exactly when the tab is loading,
    has a URL, the stored switch is not off, and [shouldRedirectUrl] says
    yes; the tab is then always sent to the one motivation URL.  With the
    switch off no tab is ever sent away. *)
Theorem onUpdated_redirects_when (status : string) (tabUrl : option string)
        (g : Gate) (target : string) :
  (onUpdated hostname status tabUrl g = Some target
   <-> target = motivationUrl
       /\ status = "loading"
       /\ extensionEnabled g <> Some false
       /\ exists url, tabUrl = Some url /\ url <> EmptyString
                      /\ shouldRedirectUrl hostname url g = true)
  /\ (extensionEnabled g = Some false ->
      onUpdated hostname status tabUrl g = None).
Proof.
  unfold onUpdated. split.
  - split.
    + destruct tabUrl as [url |]; [| discriminate].
      destruct (String.eqb_spec status "loading") as [-> | _];
        [| discriminate].
      destruct (String.eqb_spec url "") as [-> | Hne]; [discriminate |].
      simpl.
      destruct (extensionEnabled g) as [[] |]; simpl;
        try discriminate;
        destruct (shouldRedirectUrl hostname url g) eqn:E;
        try discriminate; intros H; injection H as <-;
        repeat split; try discriminate; exists url; auto.
    + intros (-> & -> & Hen & url & -> & Hne & Hs).
      apply String.eqb_neq in Hne. rewrite Hne, Hs. simpl.
      destruct (extensionEnabled g) as [[] |]; try reflexivity.
      now elim Hen.
  - intros ->. destruct tabUrl as [url |]; [| reflexivity].
    destruct (_ && _); reflexivity.
Qed.

(** X21. The motivation URL is a page of youtube.com, and youtube.com is in
    both lists the worker comes with.  So while youtube.com is blocked and
    the switch is not off, the tab that was sent to the motivation URL is,
    on loading it, sent there again. *)
Theorem motivation_page_is_blocked (g : Gate) :
  hostname motivationUrl = Some "www.youtube.com" ->
  In "youtube.com" (blockedWebsites g) ->
  extensionEnabled g <> Some false ->
  onUpdated hostname "loading" (Some motivationUrl) g = Some motivationUrl
  /\ In "youtube.com" initialBlockedWebsites
  /\ In "youtube.com" defaultBlockedWebsites.
Proof.
  intros Hhost Hin Hen. split; [| split; simpl; auto].
  assert (Hs : shouldRedirectUrl hostname motivationUrl g = true).
  { unfold shouldRedirectUrl. rewrite Hhost.
    apply existsb_exists. exists "youtube.com". split; [assumption |].
    reflexivity. }
  unfold onUpdated. rewrite Hs. simpl.
  destruct (extensionEnabled g) as [[] |]; try reflexivity. now elim Hen.
Qed.

(** X22. The check the popup makes before reloading the current tab and the
    check of the worker agree on every non-empty URL, as long as the
    worker's list is the stored list. *)
Theorem popup_check_agrees_with_worker (url : string) (g : Gate) :
  url <> EmptyString ->
  blockedWebsites g = orEmpty (storedWebsites g) ->
  checkIfCurrentTabIsBlocked hostname (Some url) g
  = shouldRedirectUrl hostname url g.
Proof.
  intros Hne Hsync. unfold checkIfCurrentTabIsBlocked, shouldRedirectUrl.
  apply String.eqb_neq in Hne. rewrite Hne, Hsync.
  destruct (orEmpty (storedWebsites g)); simpl; [| reflexivity].
  now destruct (hostname url).
Qed.

End Redirects.

Lemma motivation_page_is_blocked_witness :
  onUpdated (fun _ => Some "www.youtube.com") "loading" (Some motivationUrl)
            (Blocking.loadBlockedWebsites
               (mkGate initialBlockedWebsites None None []))
  = Some motivationUrl.
Proof.
  apply (motivation_page_is_blocked
           (fun _ => Some "www.youtube.com")
           (Blocking.loadBlockedWebsites
              (mkGate initialBlockedWebsites None None []))).
  - reflexivity.
  - simpl; auto.
  - discriminate.
Defined.

Lemma popup_check_agrees_with_worker_witness :
  checkIfCurrentTabIsBlocked
    (fun _ => Some "m.Instagram.com") (Some "https://m.instagram.com/x")
    (Blocking.loadBlockedWebsites (mkGate initialBlockedWebsites None None []))
  = shouldRedirectUrl
      (fun _ => Some "m.Instagram.com") "https://m.instagram.com/x"
      (Blocking.loadBlockedWebsites (mkGate initialBlockedWebsites None None [])).
Proof.
  apply (popup_check_agrees_with_worker (fun _ => Some "m.Instagram.com")).
  - discriminate.
  - reflexivity.
Defined.

Lemma onUpdated_redirects_when_witness :
  onUpdated (fun _ => Some "www.youtube.com") "loading"
            (Some "https://www.youtube.com/watch")
            (mkGate initialBlockedWebsites None (Some false) [])
  = None.
Proof.
  apply (proj2 (onUpdated_redirects_when
                  (fun _ => Some "www.youtube.com") "loading"
                  (Some "https://www.youtube.com/watch")
                  (mkGate initialBlockedWebsites None (Some false) [])
                  motivationUrl)).
  reflexivity.
Defined.

Lemma shouldRedirectUrl_is_substring_match_witness :
  shouldRedirectUrl (fun _ => Some "Notyoutube.com.example")
                    "https://notyoutube.com.example/"
                    (mkGate defaultBlockedWebsites None None [])
  = true.
Proof.
  apply (shouldRedirectUrl_is_substring_match
           (fun _ => Some "Notyoutube.com.example")).
  exists "Notyoutube.com.example", "youtube.com", "not", ".example".
  repeat split. simpl; auto.
Defined.

(** *** The settings form, accepted values *)

Lemma outside_spec (lo hi : Z) (a : SettingsForm.Parsed) :
  SettingsForm.below a lo || SettingsForm.above a hi = true
  <-> SettingsForm.outside lo hi a.
Proof.
  unfold SettingsForm.outside. destruct a as [x |]; simpl.
  - rewrite orb_true_iff, Z.gtb_ltb, !Z.ltb_lt. split.
    + intros H. exists x. auto.
    + intros (y & E & H). injection E as <-. exact H.
  - split; [discriminate | intros (y & E & _); discriminate].
Qed.

(** X23. The guard of the save handler fires exactly when some field that
    [parseInt] turned into a number is outside its range (1 to 60, 1 to
    30, 1 to 60, 2 to 10).  A field that is [NaN], as for an empty input,
    never makes it fire: four such fields pass.  When all four fields are
    numbers, the guard is the range check on them, and if it does not fire
    the values are stored as they are, become the settings of the worker
    and are answered with success, while running flag, phase, start time
    and completed count of the timer stay as they were. *)
Theorem range_guard_fires_exactly :
  (forall workTime shortBreak longBreak longBreakInterval
          : SettingsForm.Parsed,
      SettingsForm.rangeGuard workTime shortBreak longBreak
                              longBreakInterval = true
      <-> SettingsForm.outside 1 60 workTime
          \/ SettingsForm.outside 1 30 shortBreak
          \/ SettingsForm.outside 1 60 longBreak
          \/ SettingsForm.outside 2 10 longBreakInterval)
  /\ SettingsForm.rangeGuard None None None None = false
  /\ (forall (workTime shortBreak longBreak longBreakInterval now now' : Z)
             (w : World),
         let values :=
           mkSettings workTime shortBreak longBreak longBreakInterval in
         let result :=
           Popup.saveButtonClick workTime shortBreak longBreak
                                 longBreakInterval now now' w in
         SettingsForm.rangeGuard (Some workTime) (Some shortBreak)
                                 (Some longBreak) (Some longBreakInterval)
         = Popup.outOfRange workTime shortBreak longBreak longBreakInterval
         /\ (1 <= workTime <= 60 -> 1 <= shortBreak <= 30 ->
             1 <= longBreak <= 60 -> 2 <= longBreakInterval <= 10 ->
             fst result = Popup.Saved (SuccessSettings values)
             /\ settings (timer (snd result)) = values
             /\ timerSettings (storage (snd result)) = Some (full values)
             /\ isTimerRunning (timer (snd result))
                = isTimerRunning (timer w)
             /\ currentPhase (timer (snd result)) = currentPhase (timer w)
             /\ timerStartTime (timer (snd result))
                = timerStartTime (timer w)
             /\ completedPomodoros (timer (snd result))
                = completedPomodoros (timer w))).
Proof.
  split; [| split; [reflexivity |]].
  - intros a b c d. unfold SettingsForm.rangeGuard.
    rewrite <- (outside_spec 1 60 a), <- (outside_spec 1 30 b),
            <- (outside_spec 1 60 c), <- (outside_spec 2 10 d).
    rewrite !orb_true_iff. tauto.
  - intros a b c d now now' w; cbv zeta. split; [reflexivity |].
    intros H1 H2 H3 H4.
    assert (Hin : Popup.outOfRange a b c d = false).
    { unfold Popup.outOfRange. rewrite !orb_false_iff.
      rewrite !Z.gtb_ltb, !Z.ltb_ge. lia. }
    unfold Popup.saveButtonClick. rewrite Hin.
    unfold onMessage, updateSettings, withStorage, withTimer, setSettings;
      simpl.
    destruct (isTimerRunning (timer w)) eqn:Erun; simpl; repeat split;
      assumption.
Qed.

Lemma range_guard_fires_exactly_witness :
  SettingsForm.rangeGuard (Some 25) None (Some 15) (Some 11) = true
  /\ settings (timer (snd (Popup.saveButtonClick 50 10 20 3 1 2 freshWorld)))
     = mkSettings 50 10 20 3.
Proof.
  destruct range_guard_fires_exactly as (Hfire & _ & Hnum).
  split.
  - apply Hfire. right; right; right. exists 11. split; [reflexivity | lia].
  - apply (proj2 (Hnum 50 10 20 3 1 2 freshWorld)); lia.
Defined.
